(** * Keystore and wallet registry of rsk-rust-cli

    A shallow embedding of [src/types/wallet.rs] (the encrypted keystore
    entry [Wallet] and the registry [WalletData]), of the delete and rename
    commands of [src/commands/wallet.rs], of [src/utils/secure_fs.rs] and
    of the wrapper types of [src/utils/secrets.rs].

    The external crates the code calls (scrypt, aes-gcm, base64 and the
    secp256k1 address derivation of alloy) are kept abstract as a record of
    primitives; a theorem that depends on one of their properties takes
    that property as an explicit hypothesis. *)

From Stdlib Require Import Ascii String.
From Stdlib Require Import Strings.Byte.
From stdpp Require Import base gmap strings list fin_maps.

Open Scope string_scope.

(* ------------------------------------------------------------------ *)
(** ** Results and errors *)

(** [anyhow::Result<A>]; the error is one of the [anyhow!] sites of the
    code, named after its message. *)
Inductive Error :=
  | EncryptionFailed                 (* "Encryption failed: {}" *)
  | SaltDecode                       (* "Failed to decode salt: {}" *)
  | IvDecode                         (* "Failed to decode nonce/IV: {}" *)
  | KeyDecode                        (* "Failed to decode encrypted private key: {}" *)
  | SaltLength (n : nat)             (* "Salt must be 16 bytes, got {} bytes" *)
  | IncorrectPassword                (* "Incorrect password. Please try again." *)
  | InvalidKeyLength (n : nat)       (* "Decrypted private key has invalid length: {} bytes (expected 32)" *)
  | UnsupportedFormat                (* "Unsupported encryption format" *)
  | WalletExists (addr : string)     (* "Wallet with address {} already exists" *)
  | WalletNotFound (addr : string)   (* "Wallet with address {} not found" *)
  | RenameFailed (addr : string)     (* "Failed to rename wallet {}" *)
  | NameNotFound (name : string)     (* "Wallet '{}' not found" *)
  | EmptyName                        (* "New wallet name cannot be empty" *)
  | NameExists (name : string)       (* "Wallet with name '{}' already exists" *)
  | CannotDeleteCurrent              (* "Cannot delete currently selected wallet. ..." *)
  | NoWallets                        (* "No wallets found" *)
  | IoError (what : string).         (* std::io::Error, through [?] *)

Inductive result (A : Type) :=
  | Ok (a : A)
  | Err (e : Error).
Arguments Ok {A} a.
Arguments Err {A} e.

Definition is_err {A} (r : result A) : bool :=
  match r with Ok _ => false | Err _ => true end.

(* ------------------------------------------------------------------ *)
(** ** Hex rendering ([hex::encode], [format!("0x{:x}", ..)]) *)

Definition hex_digit (n : N) : ascii :=
  if (n <? 10)%N then ascii_of_N (48 + n) else ascii_of_N (87 + n).

(** two lowercase hex digits per byte, high nibble first *)
Definition hex_byte (b : byte) : string :=
  let n := Byte.to_N b in
  String (hex_digit (n / 16)) (String (hex_digit (n mod 16)) EmptyString).

Fixpoint hex_encode (l : list byte) : string :=
  match l with
  | [] => EmptyString
  | b :: l' => hex_byte b ++ hex_encode l'
  end.

(** [format!("0x{}", hex::encode(&plaintext))] *)
Definition key_hex (l : list byte) : string := "0x" ++ hex_encode l.

(** Parsing back a lowercase hex rendering: used only to state that the
    rendering loses nothing. *)
Definition hex_value (c : ascii) : option N :=
  let n := N_of_ascii c in
  if ((48 <=? n) && (n <=? 57))%N then Some (n - 48)%N
  else if ((97 <=? n) && (n <=? 102))%N then Some (n - 87)%N
  else None.

Fixpoint hex_decode (s : string) : option (list byte) :=
  match s with
  | EmptyString => Some []
  | String c1 (String c2 s') =>
      match hex_value c1, hex_value c2 with
      | Some h, Some l =>
          match Byte.of_N (16 * h + l), hex_decode s' with
          | Some b, Some bs => Some (b :: bs)
          | _, _ => None
          end
      | _, _ => None
      end
  | String _ EmptyString => None
  end.

Definition parse_key_hex (s : string) : option (list byte) :=
  match s with
  | String "0" (String "x" s') => hex_decode s'
  | _ => None
  end.

(* ------------------------------------------------------------------ *)
(** ** External primitives *)

(** 20-byte account address of alloy *)
Abbreviation Address := (list byte) (only parsing).

Record Primitives := {
  (** [scrypt(password, salt, &Params::recommended(), &mut [0u8; 32])]:
      with a 32-byte output and the recommended parameters the call
      cannot fail, so it is total here *)
  scrypt : list byte -> list byte -> list byte;
  (** [Aes256Gcm::new(key).encrypt(nonce, plaintext)] *)
  aes_gcm_encrypt : list byte -> list byte -> list byte -> option (list byte);
  (** [Aes256Gcm::new(key).decrypt(nonce, ciphertext)]: [None] on a tag
      mismatch *)
  aes_gcm_decrypt : list byte -> list byte -> list byte -> option (list byte);
  (** [STANDARD.encode] and [STANDARD.decode] *)
  b64_encode : list byte -> string;
  b64_decode : string -> option (list byte);
  (** [PrivateKeySigner::address] of a raw key *)
  signer_address : list byte -> Address
}.

(** [password.as_bytes()] *)
Definition as_bytes (s : string) : list byte := list_byte_of_string s.

(* ------------------------------------------------------------------ *)
(** ** Keystore entry: [Wallet] *)

Record Wallet := mkWallet {
  address : Address;
  balance : Z;
  network : string;
  name : string;
  encrypted_private_key : string;
  salt : string;
  iv : string;
  created_at : string
}.

Definition set_name (w : Wallet) (n : string) : Wallet :=
  mkWallet (address w) (balance w) (network w) n
           (encrypted_private_key w) (salt w) (iv w) (created_at w).

Section Keystore.
Variable prims : Primitives.

(** [OsRng.fill_bytes] is read from a random tape: the salt takes the
    first 16 bytes of the call and the nonce the next 12. *)
Definition fill_bytes (tape : nat -> byte) (start len : nat) : list byte :=
  map tape (seq start len).

(** [Wallet::encrypt_private_key]: returns (ciphertext, nonce, salt) *)
Definition encrypt_private_key (tape : nat -> byte) (private_key : list byte)
    (password : string) : result (list byte * list byte * list byte) :=
  let salt := fill_bytes tape 0 16 in
  let nonce := fill_bytes tape 16 12 in
  let key := scrypt prims (as_bytes password) salt in
  match aes_gcm_encrypt prims key nonce private_key with
  | None => Err EncryptionFailed
  | Some ciphertext => Ok (ciphertext, nonce, salt)
  end.

(** [Wallet::new]: [private_key] is [wallet.to_bytes()], [now] the
    timestamp [Utc::now().to_rfc3339()] *)
Definition wallet_new (tape : nat -> byte) (private_key : list byte)
    (nm password now : string) : result Wallet :=
  match encrypt_private_key tape private_key password with
  | Err e => Err e
  | Ok (encrypted_key, iv0, salt0) =>
      Ok (mkWallet (signer_address prims private_key) 0 "" nm
             (b64_encode prims encrypted_key) (b64_encode prims salt0)
             (b64_encode prims iv0) now)
  end.

(** [Wallet::decrypt_private_key] *)
Definition decrypt_private_key (w : Wallet) (password : string) : result string :=
  match b64_decode prims (salt w) with
  | None => Err SaltDecode
  | Some salt0 =>
  match b64_decode prims (iv w) with
  | None => Err IvDecode
  | Some nonce_or_iv =>
  match b64_decode prims (encrypted_private_key w) with
  | None => Err KeyDecode
  | Some encrypted_key =>
  if negb (Nat.eqb (length salt0) 16) then Err (SaltLength (length salt0)) else
  let key := scrypt prims (as_bytes password) salt0 in
  if Nat.eqb (length nonce_or_iv) 12 then
    match aes_gcm_decrypt prims key nonce_or_iv encrypted_key with
    | None => Err IncorrectPassword
    | Some plaintext =>
        if negb (Nat.eqb (length plaintext) 32)
        then Err (InvalidKeyLength (length plaintext))
        else Ok (key_hex plaintext)
    end
  else Err UnsupportedFormat
  end end end.

End Keystore.

(* ------------------------------------------------------------------ *)
(** ** Registry: [WalletData] *)

(** [crate::types::contacts::Contact], with the fields wallet.rs reads *)
Record Contact := mkContact {
  contact_name : string;
  contact_address : Address;
  notes : option string;
  tags : list string
}.

Record WalletData := mkWalletData {
  current_wallet : string;
  wallets : gmap string Wallet;
  contacts : list Contact;
  api_key : option string
}.

Definition set_current (wd : WalletData) (c : string) : WalletData :=
  mkWalletData c (wallets wd) (contacts wd) (api_key wd).

Definition set_wallets (wd : WalletData) (m : gmap string Wallet) : WalletData :=
  mkWalletData (current_wallet wd) m (contacts wd) (api_key wd).

(** [WalletData::new] *)
Definition wallet_data_new : WalletData := mkWalletData "" ∅ [] None.

(** [format!("0x{:x}", wallet.address)]: the key of an entry *)
Definition addr_key (a : Address) : string := "0x" ++ hex_encode a.

(** A [&mut self] method returns the updated registry with its result;
    on every error path of the code nothing has been mutated yet. *)
Abbreviation Mut A := (WalletData -> WalletData * result A) (only parsing).

(** [WalletData::add_wallet] *)
Definition add_wallet (wallet : Wallet) : Mut unit := fun wd =>
  let a := addr_key (address wallet) in
  match wallets wd !! a with
  | Some _ => (wd, Err (WalletExists a))
  | None => (set_current (set_wallets wd (<[a := wallet]> (wallets wd))) a, Ok tt)
  end.

(** [WalletData::get_current_wallet] *)
Definition get_current_wallet (wd : WalletData) : option Wallet :=
  wallets wd !! current_wallet wd.

(** [WalletData::switch_wallet] *)
Definition switch_wallet (a : string) : Mut unit := fun wd =>
  match wallets wd !! a with
  | None => (wd, Err (WalletNotFound a))
  | Some _ => (set_current wd a, Ok tt)
  end.

(** [WalletData::get_wallet_by_name]: [values().find(..)]. The iteration
    order of a [HashMap] is unspecified; the order of [map_to_list] stands
    in for it. *)
Definition get_wallet_by_name (wd : WalletData) (n : string) : option Wallet :=
  List.find (fun w => bool_decide (name w = n)) (map snd (map_to_list (wallets wd))).

(** [WalletData::remove_wallet] *)
Definition remove_wallet (a : string) : Mut unit := fun wd =>
  match wallets wd !! a with
  | None => (wd, Err (WalletNotFound a))
  | Some _ =>
      let wd1 := if bool_decide (current_wallet wd = a) then set_current wd "" else wd in
      (set_wallets wd1 (delete a (wallets wd1)), Ok tt)
  end.

(** [WalletData::rename_wallet] *)
Definition rename_wallet (wallet : Wallet) (new_name : string) : Mut unit := fun wd =>
  let a := addr_key (address wallet) in
  match wallets wd !! a with
  | None => (wd, Err (WalletNotFound a))
  | Some w => (set_wallets wd (<[a := set_name w new_name]> (wallets wd)), Ok tt)
  end.

(** The commands of [src/commands/wallet.rs] read the registry file,
    work on the deserialized [WalletData] and write it back with
    [write_secure] only when they succeed; the registry they write is the
    first component (the input itself on an error). *)

(** [WalletCommand::delete_wallet] *)
Definition delete_wallet_cmd (n : string) : Mut unit := fun wd =>
  match get_wallet_by_name wd n with
  | None => (wd, Err (NameNotFound n))
  | Some w =>
      let a := addr_key (address w) in
      if bool_decide (current_wallet wd = a) then (wd, Err CannotDeleteCurrent)
      else let '(wd', _) := remove_wallet a wd in (wd', Ok tt)
  end.

(** [WalletCommand::rename_wallet] *)
Definition rename_wallet_cmd (old_name new_name : string) : Mut unit := fun wd =>
  match get_wallet_by_name wd old_name with
  | None => (wd, Err (NameNotFound old_name))
  | Some w =>
      if bool_decide (new_name = "") then (wd, Err EmptyName) else
      match get_wallet_by_name wd new_name with
      | Some _ => (wd, Err (NameExists new_name))
      | None =>
          let a := addr_key (address w) in
          match wallets wd !! a with
          | Some w' => (set_wallets wd (<[a := set_name w' new_name]> (wallets wd)), Ok tt)
          | None => (wd, Err (RenameFailed old_name))
          end
      end
  end.

(** The registry operations of the claims, run one after the other;
    a failing operation leaves the registry as it was. *)
Inductive RegistryOp :=
  | OpAdd (w : Wallet)
  | OpSwitch (a : string)
  | OpRemove (a : string)
  | OpRename (w : Wallet) (new_name : string).

Definition run_op (o : RegistryOp) : Mut unit :=
  match o with
  | OpAdd w => add_wallet w
  | OpSwitch a => switch_wallet a
  | OpRemove a => remove_wallet a
  | OpRename w n => rename_wallet w n
  end.

Fixpoint run_ops (os : list RegistryOp) (wd : WalletData) : WalletData :=
  match os with
  | [] => wd
  | o :: os' => run_ops os' (fst (run_op o wd))
  end.

(** [current] is empty or the key of an entry *)
Definition current_valid (wd : WalletData) : Prop :=
  current_wallet wd = "" \/ is_Some (wallets wd !! current_wallet wd).

(** every entry is stored under the rendering of its own address *)
Definition keys_consistent (wd : WalletData) : Prop :=
  forall k w, wallets wd !! k = Some w -> k = addr_key (address w).

(* ------------------------------------------------------------------ *)
(** ** Unix file system and [src/utils/secure_fs.rs] *)

Module Fs.

(** An absolute path as its components; [[]] is the root directory. *)
Abbreviation Path := (list string) (only parsing).

(** permission bits of a node (the [st_mode] permission part) *)
Inductive Node :=
  | Dir (mode : N)
  | File (mode : N) (contents : string).

Record FsState := mkFs {
  nodes : gmap (list string) Node;
  umask : N
}.

Definition set_node (s : FsState) (p : Path) (nd : Node) : FsState :=
  mkFs (<[p := nd]> (nodes s)) (umask s).

(** octal 0o777, 0o666, 0o700, 0o600 *)
Definition mode_777 : N := 511.
Definition mode_666 : N := 438.
Definition mode_700 : N := 448.
Definition mode_600 : N := 384.

(** the root always exists as a directory *)
Definition lookup_node (s : FsState) (p : Path) : option Node :=
  match p with
  | [] => Some (Dir mode_777)
  | _ => nodes s !! p
  end.

(** A small state and error monad for the file-system calls. *)
Definition FsM (A : Type) := FsState -> FsState * result A.

Definition ret {A} (a : A) : FsM A := fun s => (s, Ok a).
Definition fail {A} (e : Error) : FsM A := fun s => (s, Err e).
Definition bind {A B} (m : FsM A) (k : A -> FsM B) : FsM B := fun s =>
  match m s with
  | (s', Ok a) => k a s'
  | (s', Err e) => (s', Err e)
  end.

Notation "m ;;; k" := (bind m (fun _ => k))
  (at level 100, right associativity).

(** [Path::parent]: [None] only for the root *)
Definition parent (p : Path) : option Path :=
  match p with [] => None | _ => Some (removelast p) end.

(** [mkdir(p, 0o777)] of one missing component (then masked by the umask);
    an existing directory is left as it is *)
Definition mkdir_one (p : Path) : FsM unit := fun s =>
  match lookup_node s p with
  | Some (Dir _) => (s, Ok tt)
  | Some (File _ _) => (s, Err (IoError "File exists"))
  | None => (set_node s p (Dir (N.ldiff mode_777 (umask s))), Ok tt)
  end.

(** [fs::create_dir_all]: every prefix of the path, shortest first *)
Fixpoint create_dir_all_from (done_ : Path) (rest : Path) : FsM unit :=
  match rest with
  | [] => ret tt
  | c :: rest' =>
      mkdir_one (done_ ++ [c]) ;;; create_dir_all_from (done_ ++ [c]) rest'
  end.

Definition create_dir_all (p : Path) : FsM unit := create_dir_all_from [] p.

(** [fs::write]: create (mode 0o666 masked by the umask) or truncate (mode
    kept) and write the whole contents *)
Definition write (p : Path) (contents : string) : FsM unit := fun s =>
  match parent p with
  | None => (s, Err (IoError "Is a directory"))
  | Some q =>
      match lookup_node s q with
      | Some (Dir _) =>
          match lookup_node s p with
          | Some (Dir _) => (s, Err (IoError "Is a directory"))
          | Some (File m _) => (set_node s p (File m contents), Ok tt)
          | None => (set_node s p (File (N.ldiff mode_666 (umask s)) contents), Ok tt)
          end
      | _ => (s, Err (IoError "No such file or directory"))
      end
  end.

(** [fs::metadata(p)?.permissions()], [set_mode(m)], [fs::set_permissions] *)
Definition set_mode (p : Path) (m : N) : FsM unit := fun s =>
  match p, lookup_node s p with
  | [], _ => (s, Err (IoError "Operation not permitted"))
  | _, Some (Dir _) => (set_node s p (Dir m), Ok tt)
  | _, Some (File _ c) => (set_node s p (File m c), Ok tt)
  | _, None => (s, Err (IoError "No such file or directory"))
  end.

(** [write_secure] (the Unix branch) *)
Definition write_secure (p : Path) (contents : string) : FsM unit :=
  (match parent p with
   | Some q => create_dir_all q
   | None => ret tt
   end) ;;;
  write p contents ;;;
  set_mode p mode_600 ;;;
  ret tt.

(** [create_dir_secure] (the Unix branch) *)
Definition create_dir_secure (p : Path) : FsM unit :=
  create_dir_all p ;;;
  set_mode p mode_700 ;;;
  ret tt.

(** [constants::wallet_file_path] followed by [write_secure] of the
    serialized registry, as every command that mutates the registry does *)
Definition write_registry (dir : Path) (file_name contents : string) : FsM unit :=
  create_dir_secure dir ;;;
  write_secure (dir ++ [file_name]) contents.

(** [constants::wallet_file_path]: [data_local_dir] is
    [dirs::data_local_dir()]; the directory [rsk-rust-cli] in it is made
    with [create_dir_secure] (an error there is the [expect] panic) and the
    registry path inside it is returned *)
Definition wallet_file_path (data_local_dir : Path) : FsM Path :=
  create_dir_secure (data_local_dir ++ ["rsk-rust-cli"])%list ;;;
  ret ((data_local_dir ++ ["rsk-rust-cli"]) ++ ["rsk-rust-cli.json"])%list.

(** a step that only touches the node at [q] and keeps the umask *)
Definition touches_only (q : Path) (s s' : FsState) : Prop :=
  umask s' = umask s /\ forall p, p <> q -> lookup_node s' p = lookup_node s p.

End Fs.

(* ------------------------------------------------------------------ *)
(** ** [src/utils/secrets.rs] *)

Module Secrets.

(** [std::any::type_name::<T>()] *)
Class TypeName (T : Type) := type_name : string.

Record Secret (T : Type) := mkSecret { secret_value : T }.
Record SerializableSecret (T : Type) := mkSerializableSecret { ser_value : T }.
Arguments mkSecret {T} _.
Arguments secret_value {T} _.
Arguments mkSerializableSecret {T} _.
Arguments ser_value {T} _.

Definition secret_new {T} (v : T) : Secret T := mkSecret v.
Definition expose {T} (s : Secret T) : T := secret_value s.
Definition serializable_new {T} (v : T) : SerializableSecret T := mkSerializableSecret v.
Definition ser_expose {T} (s : SerializableSecret T) : T := ser_value s.

(** [impl Debug for Secret<T>] and [impl Display for Secret<T>]:
    [write!(f, "Secret<{}>", type_name::<T>())] *)
Definition secret_debug {T} `{TypeName T} (s : Secret T) : string :=
  "Secret<" ++ type_name ++ ">".
Definition secret_display {T} `{TypeName T} (s : Secret T) : string :=
  "Secret<" ++ type_name ++ ">".

(** the same two impls for [SerializableSecret<T>] *)
Definition serializable_debug {T} `{TypeName T} (s : SerializableSecret T) : string :=
  "SerializableSecret<" ++ type_name ++ ">".
Definition serializable_display {T} `{TypeName T} (s : SerializableSecret T) : string :=
  "SerializableSecret<" ++ type_name ++ ">".

#[export] Instance type_name_string : TypeName string := "alloc::string::String".

End Secrets.

(* ------------------------------------------------------------------ *)
(** ** Strings as [str] methods use them *)

(** [str::contains]: [q] occurs in [s] *)
Fixpoint str_contains (s q : string) : bool :=
  String.prefix q s ||
  match s with
  | EmptyString => false
  | String _ s' => str_contains s' q
  end.

(** [str::ends_with] *)
Definition str_ends_with (s suf : string) : bool :=
  let n := String.length s in
  let m := String.length suf in
  Nat.leb m n && String.eqb (substring (n - m) m s) suf.

(** [str::to_lowercase] on ASCII text (the [string] of this development
    holds ASCII characters; on them Rust's Unicode lowering is this map) *)
Definition ascii_lower (c : ascii) : ascii :=
  let n := N_of_ascii c in
  if ((65 <=? n) && (n <=? 90))%N then ascii_of_N (n + 32) else c.

Fixpoint to_lowercase (s : string) : string :=
  match s with
  | EmptyString => EmptyString
  | String c s' => String (ascii_lower c) (to_lowercase s')
  end.

(* ------------------------------------------------------------------ *)
(** ** Contacts, and the commands of [src/commands/wallet.rs] *)

(** Errors of the sites below that [Error] does not list. *)
Inductive XError :=
  | Base (e : Error)                 (* an error of the core, passed on by [?] *)
  | ContactExists                    (* "Contact with name or address already exists" *)
  | ContactNotFound                  (* "Contact not found" *)
  | SignerParse                      (* [PrivateKeySigner::from_str] failed *)
  | InvalidBackupName (name : string) (* "Invalid wallet name '{}'. Use --name ..." *)
  | Panicked (e : Error).            (* an [expect] that failed: the command aborts *)

Inductive xresult (A : Type) :=
  | XOk (a : A)
  | XErr (e : XError).
Arguments XOk {A} a.
Arguments XErr {A} e.

#[export] Instance byte_eq_decision : EqDecision byte := Byte.byte_eq_dec.

Definition set_contacts (wd : WalletData) (cs : list Contact) : WalletData :=
  mkWalletData (current_wallet wd) (wallets wd) cs (api_key wd).

(** [list.iter().position(p)] *)
Fixpoint position {A} (p : A -> bool) (l : list A) : option nat :=
  match l with
  | [] => None
  | x :: l' => if p x then Some 0 else option_map S (position p l')
  end.

(** [Vec::remove(i)] for an index in range *)
Fixpoint remove_at {A} (i : nat) (l : list A) : list A :=
  match l, i with
  | [], _ => []
  | _ :: l', 0 => l'
  | x :: l', S i' => x :: remove_at i' l'
  end.

Section ContactBook.
(** [impl Display for Address] of alloy (the EIP-55 checksummed form) *)
Variable addr_to_string : Address -> string.

(** the predicate of [remove_contact], [update_contact], [get_contact] *)
Definition contact_matches (identifier : string) (c : Contact) : bool :=
  bool_decide (contact_name c = identifier) ||
  bool_decide (addr_to_string (contact_address c) = identifier).

(** [WalletData::add_contact] *)
Definition add_contact (contact : Contact) (wd : WalletData) : WalletData * xresult unit :=
  if existsb (fun c => bool_decide (contact_name c = contact_name contact) ||
                       bool_decide (contact_address c = contact_address contact))
             (contacts wd)
  then (wd, XErr ContactExists)
  else (set_contacts wd (contacts wd ++ [contact]), XOk tt).

(** [WalletData::remove_contact] *)
Definition remove_contact (identifier : string) (wd : WalletData) : WalletData * xresult unit :=
  match position (contact_matches identifier) (contacts wd) with
  | None => (wd, XErr ContactNotFound)
  | Some i => (set_contacts wd (remove_at i (contacts wd)), XOk tt)
  end.

(** [WalletData::update_contact]: [contacts[index] = contact] *)
Definition update_contact (identifier : string) (contact : Contact) (wd : WalletData)
    : WalletData * xresult unit :=
  match position (contact_matches identifier) (contacts wd) with
  | None => (wd, XErr ContactNotFound)
  | Some i => (set_contacts wd (<[i := contact]> (contacts wd)), XOk tt)
  end.

(** [WalletData::get_contact] *)
Definition get_contact (wd : WalletData) (identifier : string) : option Contact :=
  List.find (contact_matches identifier) (contacts wd).

(** [WalletData::search_contacts] *)
Definition search_matches (query : string) (c : Contact) : bool :=
  str_contains (to_lowercase (contact_name c)) (to_lowercase query) ||
  str_contains (addr_to_string (contact_address c)) query ||
  match notes c with Some n => str_contains n query | None => false end ||
  existsb (fun t => str_contains t query) (tags c).

Definition search_contacts (wd : WalletData) (query : string) : list Contact :=
  List.filter (search_matches query) (contacts wd).

End ContactBook.

Section Commands.
Variable prims : Primitives.

(** The registry file of [wallet_file_path], as the [WalletData] it
    deserializes to; [None] when the file does not exist. *)
Abbreviation RegistryFile := (option WalletData) (only parsing).

(** [WalletCommand::create_wallet]: [fresh_key] is
    [PrivateKeySigner::random()], [tape] the draw of [OsRng]; the new
    contents of the file come first ([file] itself when nothing is written) *)
Definition create_wallet_cmd (tape : nat -> byte) (fresh_key : list byte)
    (nm password now : string) (file : RegistryFile) : RegistryFile * xresult unit :=
  let taken := match file with
               | Some wd => match get_wallet_by_name wd nm with Some _ => true | None => false end
               | None => false
               end in
  if taken then (file, XErr (Base (NameExists nm))) else
  match wallet_new prims tape fresh_key nm password now with
  | Err e => (file, XErr (Base e))
  | Ok w =>
      let wd := match file with Some wd => wd | None => wallet_data_new end in
      (Some (fst (add_wallet w wd)), XOk tt)
  end.

(** [WalletCommand::import_wallet]: [parse] is [PrivateKeySigner::from_str] *)
Definition import_wallet_cmd (parse : string -> option (list byte)) (tape : nat -> byte)
    (private_key nm password now : string) (file : RegistryFile)
    : RegistryFile * xresult unit :=
  match parse private_key with
  | None => (file, XErr SignerParse)
  | Some key =>
      match wallet_new prims tape key nm password now with
      | Err e => (file, XErr (Base e))
      | Ok w =>
          let wd := match file with Some wd => wd | None => wallet_data_new end in
          (Some (fst (add_wallet w wd)), XOk tt)
      end
  end.

End Commands.

(** [WalletCommand::switch_wallet]: reading a missing file fails *)
Definition switch_wallet_cmd (nm : string) (file : option WalletData)
    : option WalletData * xresult unit :=
  match file with
  | None => (file, XErr (Base (IoError "No such file or directory")))
  | Some wd =>
      match get_wallet_by_name wd nm with
      | None => (file, XErr (Base (NameNotFound nm)))
      | Some w => (Some (fst (switch_wallet (addr_key (address w)) wd)), XOk tt)
      end
  end.

(** [WalletCommand::backup_wallet]: [wallet_file_path] runs first (its
    [expect] panicking on an error); [file] is then the registry file it
    names, [None] when it does not exist; [wallet_json] is
    [serde_json::to_string_pretty] of one [Wallet]; the file steps are the
    ones the function writes out inline *)
Definition backup_wallet_cmd (wallet_json : Wallet -> string) (data_local_dir : Fs.Path)
    (file : option WalletData) (nm : string) (path : Fs.Path) (s0 : Fs.FsState)
    : Fs.FsState * xresult unit :=
  match Fs.wallet_file_path data_local_dir s0 with
  | (s, Err e) => (s, XErr (Panicked e))
  | (s, Ok _) =>
  match file with
  | None => (s, XErr (Base NoWallets))
  | Some wd =>
      if str_ends_with nm ".json" then (s, XErr (InvalidBackupName nm)) else
      match get_wallet_by_name wd nm with
      | None => (s, XErr (Base (NameNotFound nm)))
      | Some w =>
          let steps :=
            Fs.bind (match Fs.parent path with
                     | Some q => Fs.create_dir_all q
                     | None => Fs.ret tt
                     end) (fun _ =>
            Fs.bind (Fs.write path (wallet_json w)) (fun _ =>
            Fs.set_mode path Fs.mode_600)) in
          match steps s with
          | (s', Ok _) => (s', XOk tt)
          | (s', Err e) => (s', XErr (Base e))
          end
      end
  end
  end.

(** ** A concrete instance of the primitives

    Used to run the theorems at concrete inputs: a one-byte checksum tag in
    front of the plaintext, and the identity between bytes and the
    characters of a string for base64. *)
Module ToyPrims.

Definition tag (k n p : list byte) : byte :=
  match Byte.of_N ((fold_right (fun b acc => Byte.to_N b + acc) 0 (k ++ n ++ p)) mod 256)%N with
  | Some b => b
  | None => x00
  end.

Definition encrypt (k n p : list byte) : option (list byte) := Some (tag k n p :: p).

Definition decrypt (k n c : list byte) : option (list byte) :=
  match c with
  | [] => None
  | t :: p => if Byte.eqb t (tag k n p) then Some p else None
  end.

Definition toy : Primitives := {|
  scrypt := fun pw s => firstn 32 (pw ++ s ++ repeat x00 32);
  aes_gcm_encrypt := encrypt;
  aes_gcm_decrypt := decrypt;
  b64_encode := string_of_list_byte;
  b64_decode := fun s => Some (list_byte_of_string s);
  signer_address := firstn 20
|}.

Definition zero_tape : nat -> byte := fun _ => x00.
Definition key0 : list byte := repeat x07 32.

End ToyPrims.

(** A registry holding one wallet named "main", which is current. *)
Module Sample.

Definition w1 : Wallet := mkWallet [x01; x02] 0 "" "main" "k" "s" "i" "t".

Definition wd0 : WalletData := fst (add_wallet w1 wallet_data_new).

(** a second wallet "spare", added after "main" and so current *)
Definition w2 : Wallet := mkWallet [x03] 0 "" "spare" "k" "s" "i" "t".

Definition wd1 : WalletData := fst (add_wallet w2 wd0).

(** the wallet [Wallet::new] builds for [ToyPrims.key0], "main", "pw" *)
Definition toy_wallet : Wallet :=
  match wallet_new ToyPrims.toy ToyPrims.zero_tape ToyPrims.key0 "main" "pw" "t" with
  | Ok w => w
  | Err _ => w1
  end.

Definition alice : Contact := mkContact "Alice" [x0a] None ["friend"].

(** a registry with a contact and an API key, whose current wallet is
    "main" *)
Definition wd_rich : WalletData := mkWalletData "0x0102" (wallets wd0) [alice] (Some "key").

Definition bob : Contact := mkContact "Bob" [x0b] (Some "work") [].

(** a contact book already holding Bob *)
Definition wd_bob : WalletData := mkWalletData "0x0102" (wallets wd0) [bob] None.

(** [Wallet::new] for [ToyPrims.key0] under the free name "savings" *)
Definition toy_wallet2 : Wallet :=
  match wallet_new ToyPrims.toy ToyPrims.zero_tape ToyPrims.key0 "savings" "pw" "t" with
  | Ok w => w
  | Err _ => w1
  end.

(** /home/u/rsk-rust-cli exists with mode 0o755 *)
Definition fs_data_755 : Fs.FsState :=
  Fs.mkFs (<[["home"] := Fs.Dir 493]> (<[["home"; "u"] := Fs.Dir 493]>
            (<[["home"; "u"; "rsk-rust-cli"] := Fs.Dir 493]> ∅))) 18.

(** a file system where /home is a regular file *)
Definition fs_home_file : Fs.FsState :=
  Fs.mkFs (<[["home"] := Fs.File 420 "x"]> ∅) 18.

End Sample.

(* ================================================================== *)
(** * Properties *)

(** ** Hex rendering is lossless *)

Lemma hex_decode_byte (b : byte) (s : string) :
  hex_decode (hex_byte b ++ s) =
  match hex_decode s with Some bs => Some (b :: bs) | None => None end.
Proof. destruct b; reflexivity. Qed.

Lemma hex_decode_encode (l : list byte) : hex_decode (hex_encode l) = Some l.
Proof.
  induction l as [|b l IH]; [reflexivity|].
  cbn [hex_encode]. rewrite hex_decode_byte, IH. reflexivity.
Qed.

Lemma parse_key_hex_key_hex (l : list byte) : parse_key_hex (key_hex l) = Some l.
Proof. apply hex_decode_encode. Qed.

(** ** Keystore *)

Section KeystoreProps.
Variable prims : Primitives.

(** The nonce and the salt have the lengths the decryption checks. *)
Lemma fill_bytes_length tape start len : length (fill_bytes tape start len) = len.
Proof. unfold fill_bytes. rewrite length_map, length_seq. reflexivity. Qed.

(** A tag failure of the cipher is reported as an incorrect password. *)
Lemma decrypt_tag_failure (w : Wallet) (P : string) s n c :
  b64_decode prims (salt w) = Some s ->
  b64_decode prims (iv w) = Some n ->
  b64_decode prims (encrypted_private_key w) = Some c ->
  length s = 16 -> length n = 12 ->
  aes_gcm_decrypt prims (scrypt prims (as_bytes P) s) n c = None ->
  decrypt_private_key prims w P = Err IncorrectPassword.
Proof.
  intros Hs Hn Hc Ls Ln Hd. unfold decrypt_private_key.
  rewrite Hs, Hn, Hc, Ls, Ln. simpl. rewrite Hd. reflexivity.
Qed.

End KeystoreProps.

(** Claim C1: encryption/decryption round-trip.  For every 32-byte raw key
    [K], every password [P] and every draw of the random source,
    [encrypt_private_key K P] succeeds, and decrypting with [P] any entry
    holding the base64 encodings of the returned (ciphertext, nonce, salt),
    in particular the entry built by [Wallet::new], returns the 0x-hex
    rendering of [K], from which [K] is recovered exactly.  The cipher and
    base64 are assumed correct: base64 decoding inverts encoding, a 32-byte
    plaintext always encrypts, and decryption inverts encryption. *)
Theorem encrypt_decrypt_roundtrip (prims : Primitives) (tape : nat -> byte)
    (K : list byte) (P : string)
    (HK : length K = 32)
    (Hb64 : forall l, b64_decode prims (b64_encode prims l) = Some l)
    (Henc : forall k n p, length p = 32 -> is_Some (aes_gcm_encrypt prims k n p))
    (Hdec : forall k n p c, aes_gcm_encrypt prims k n p = Some c ->
                            aes_gcm_decrypt prims k n c = Some p) :
  exists ct nonce s,
    encrypt_private_key prims tape K P = Ok (ct, nonce, s) /\
    (forall w, encrypted_private_key w = b64_encode prims ct ->
               iv w = b64_encode prims nonce ->
               salt w = b64_encode prims s ->
               decrypt_private_key prims w P = Ok (key_hex K)) /\
    (forall nm now, exists w, wallet_new prims tape K nm P now = Ok w /\
                              decrypt_private_key prims w P = Ok (key_hex K)) /\
    parse_key_hex (key_hex K) = Some K.
Proof.
  destruct (Henc (scrypt prims (as_bytes P) (fill_bytes tape 0 16))
                 (fill_bytes tape 16 12) K HK) as [ct Hct].
  assert (Henc_eq : encrypt_private_key prims tape K P =
                    Ok (ct, fill_bytes tape 16 12, fill_bytes tape 0 16)).
  { unfold encrypt_private_key. rewrite Hct. reflexivity. }
  assert (Hw : forall w, encrypted_private_key w = b64_encode prims ct ->
                 iv w = b64_encode prims (fill_bytes tape 16 12) ->
                 salt w = b64_encode prims (fill_bytes tape 0 16) ->
                 decrypt_private_key prims w P = Ok (key_hex K)).
  { intros w He Hi Hs. unfold decrypt_private_key.
    rewrite Hs, Hi, He, !Hb64, !fill_bytes_length. simpl.
    rewrite (Hdec _ _ _ _ Hct), HK. reflexivity. }
  exists ct, (fill_bytes tape 16 12), (fill_bytes tape 0 16).
  split; [exact Henc_eq|]. split; [exact Hw|]. split.
  - intros nm now. unfold wallet_new. rewrite Henc_eq.
    eexists. split; [reflexivity|]. apply Hw; reflexivity.
  - apply parse_key_hex_key_hex.
Qed.

(** Claim C4: decryption rejects every malformed entry.
    [decrypt_private_key] returns an error, never a plaintext, as soon as
    the salt, the nonce or the ciphertext field fails base64 decoding, the
    decoded salt is not 16 bytes long, the decoded nonce is not 12 bytes
    long (there is no fallback cipher), or the authenticated decryption
    succeeds with a plaintext whose length is not 32 bytes. *)
Theorem decrypt_rejects_malformed (prims : Primitives) (w : Wallet) (P : string)
    (Hbad :
       b64_decode prims (salt w) = None \/
       b64_decode prims (iv w) = None \/
       b64_decode prims (encrypted_private_key w) = None \/
       (exists s, b64_decode prims (salt w) = Some s /\ length s <> 16) \/
       (exists n, b64_decode prims (iv w) = Some n /\ length n <> 12) \/
       (exists s n c p,
          b64_decode prims (salt w) = Some s /\
          b64_decode prims (iv w) = Some n /\
          b64_decode prims (encrypted_private_key w) = Some c /\
          aes_gcm_decrypt prims (scrypt prims (as_bytes P) s) n c = Some p /\
          length p <> 32)) :
  exists e, decrypt_private_key prims w P = Err e.
Proof.
  unfold decrypt_private_key.
  destruct (b64_decode prims (salt w)) as [s|] eqn:Hs; [|eauto].
  destruct (b64_decode prims (iv w)) as [n|] eqn:Hn; [|eauto].
  destruct (b64_decode prims (encrypted_private_key w)) as [c|] eqn:Hc; [|eauto].
  destruct (Nat.eqb (length s) 16) eqn:Ls; simpl; [|eauto].
  apply Nat.eqb_eq in Ls.
  destruct (Nat.eqb (length n) 12) eqn:Ln; [|eauto].
  apply Nat.eqb_eq in Ln.
  destruct (aes_gcm_decrypt prims (scrypt prims (as_bytes P) s) n c) as [p|] eqn:Hd;
    [|eauto].
  destruct (Nat.eqb (length p) 32) eqn:Lp; simpl; [|eauto].
  apply Nat.eqb_eq in Lp. exfalso.
  destruct Hbad as [H|[H|[H|[H|[H|H]]]]]; try congruence.
  - destruct H as (s' & Hs' & L). congruence.
  - destruct H as (n' & Hn' & L). congruence.
  - destruct H as (s' & n' & c' & p' & Hs' & Hn' & Hc' & Hd' & L).
    simplify_eq.
Qed.


Module ToyPrimsFacts.
Import ToyPrims.

Lemma toy_b64 l : b64_decode toy (b64_encode toy l) = Some l.
Proof. simpl. rewrite list_byte_of_string_of_list_byte. reflexivity. Qed.

Lemma toy_enc k n p : length p = 32 -> is_Some (aes_gcm_encrypt toy k n p).
Proof. intros _. simpl. unfold ToyPrims.encrypt. eexists. reflexivity. Qed.

Lemma toy_dec k n p c :
  aes_gcm_encrypt toy k n p = Some c -> aes_gcm_decrypt toy k n c = Some p.
Proof.
  simpl. unfold ToyPrims.encrypt, ToyPrims.decrypt. intros H. injection H as <-.
  rewrite Byte.byte_dec_lb by reflexivity. reflexivity.
Qed.

End ToyPrimsFacts.

(** Witness of C1: the end-to-end scenario of the spec, a wallet named
    "main" with password "Str0ng!Pw" decrypts to its key. *)
Lemma encrypt_decrypt_roundtrip_witness :
  length ToyPrims.key0 = 32 /\
  exists w, wallet_new ToyPrims.toy ToyPrims.zero_tape ToyPrims.key0 "main" "Str0ng!Pw" "t" = Ok w /\
            decrypt_private_key ToyPrims.toy w "Str0ng!Pw" = Ok (key_hex ToyPrims.key0).
Proof.
  split; [reflexivity|].
  destruct (encrypt_decrypt_roundtrip ToyPrims.toy ToyPrims.zero_tape ToyPrims.key0 "Str0ng!Pw"
              eq_refl ToyPrimsFacts.toy_b64 ToyPrimsFacts.toy_enc ToyPrimsFacts.toy_dec)
    as (ct & nonce & s & _ & _ & Hnew & _).
  apply Hnew.
Defined.

(** Witness of C4: a stored salt of 3 bytes. *)
Lemma decrypt_rejects_malformed_witness :
  exists e, decrypt_private_key ToyPrims.toy
              (mkWallet [] 0 "" "main" "" "abc" "" "") "pw" = Err e.
Proof.
  apply (decrypt_rejects_malformed ToyPrims.toy (mkWallet [] 0 "" "main" "" "abc" "" "") "pw").
  right; right; right; left. exists (list_byte_of_string "abc"). split; [reflexivity|].
  simpl. lia.
Defined.

(** ** Registry *)

Lemma get_wallet_by_name_some (wd : WalletData) n w :
  get_wallet_by_name wd n = Some w ->
  name w = n /\ exists k, wallets wd !! k = Some w.
Proof.
  unfold get_wallet_by_name. intros H.
  apply List.find_some in H as [Hin Hn].
  apply bool_decide_eq_true in Hn. split; [exact Hn|].
  apply List.in_map_iff in Hin as [[k w'] [Hw Hin]]. simpl in Hw; subst w'.
  exists k. apply elem_of_map_to_list. apply list_elem_of_In. exact Hin.
Qed.

Lemma get_wallet_by_name_none (wd : WalletData) n :
  get_wallet_by_name wd n = None ->
  forall k w, wallets wd !! k = Some w -> name w <> n.
Proof.
  unfold get_wallet_by_name. intros H k w Hk Hn.
  assert (Hin : List.In w (map snd (map_to_list (wallets wd)))).
  { apply List.in_map_iff. exists (k, w). split; [reflexivity|].
    apply list_elem_of_In. apply elem_of_map_to_list. exact Hk. }
  pose proof (List.find_none _ _ H w Hin) as Hf. simpl in Hf.
  apply bool_decide_eq_false in Hf. contradiction.
Qed.

Lemma keys_consistent_new : keys_consistent wallet_data_new.
Proof. intros k w H. simpl in H. rewrite lookup_empty in H. discriminate. Qed.

Lemma keys_consistent_run_op (o : RegistryOp) (wd : WalletData) :
  keys_consistent wd -> keys_consistent (fst (run_op o wd)).
Proof.
  intros Hc. destruct o as [w|a|a|w n]; simpl.
  - unfold add_wallet. destruct (wallets wd !! addr_key (address w)); [exact Hc|].
    intros k w' H. simpl in H. apply lookup_insert_Some in H as [[<- <-]|[_ H]];
      [reflexivity|]. exact (Hc _ _ H).
  - unfold switch_wallet. destruct (wallets wd !! a); exact Hc.
  - unfold remove_wallet. destruct (wallets wd !! a); [|exact Hc].
    intros k w' H. case_bool_decide; simpl in H;
      apply lookup_delete_Some in H as [_ H]; exact (Hc _ _ H).
  - unfold rename_wallet. destruct (wallets wd !! addr_key (address w)) as [w0|] eqn:E;
      [|exact Hc].
    intros k w' H. simpl in H. apply lookup_insert_Some in H as [[<- <-]|[_ H]].
    + simpl. exact (Hc _ _ E).
    + exact (Hc _ _ H).
Qed.

Lemma keys_consistent_run_ops (os : list RegistryOp) (wd : WalletData) :
  keys_consistent wd -> keys_consistent (run_ops os wd).
Proof.
  revert wd. induction os as [|o os IH]; intros wd Hc; simpl; [exact Hc|].
  apply IH, keys_consistent_run_op, Hc.
Qed.

(** Claim C5: uniqueness and effect of [add_wallet].  If the rendered
    address of the entry is already a key, [add_wallet] fails with the
    duplicate-address error and the registry is unchanged; otherwise it
    inserts the entry under that key and makes it current, touching
    nothing else. *)
Theorem add_wallet_spec (wd : WalletData) (w : Wallet) :
  let a := addr_key (address w) in
  (is_Some (wallets wd !! a) -> add_wallet w wd = (wd, Err (WalletExists a))) /\
  (wallets wd !! a = None ->
     add_wallet w wd =
       (mkWalletData a (<[a := w]> (wallets wd)) (contacts wd) (api_key wd), Ok tt)).
Proof.
  simpl. unfold add_wallet. split.
  - intros [v Hv]. rewrite Hv. reflexivity.
  - intros Hn. rewrite Hn. reflexivity.
Qed.

Lemma run_op_current_valid (o : RegistryOp) (wd : WalletData) :
  current_valid wd -> current_valid (fst (run_op o wd)).
Proof.
  unfold current_valid. intros Hv. destruct o as [w|a|a|w n]; simpl.
  - unfold add_wallet. destruct (wallets wd !! addr_key (address w)); [exact Hv|].
    right. simpl. rewrite lookup_insert_eq. eexists; reflexivity.
  - unfold switch_wallet. destruct (wallets wd !! a) eqn:E; [|exact Hv].
    right. simpl. rewrite E. eexists; reflexivity.
  - unfold remove_wallet. destruct (wallets wd !! a); [|exact Hv].
    case_bool_decide as Hc; simpl.
    + left. reflexivity.
    + destruct Hv as [Hv|Hv]; [left; exact Hv|right].
      rewrite lookup_delete_ne by congruence. exact Hv.
  - unfold rename_wallet. destruct (wallets wd !! addr_key (address w)) eqn:E;
      [|exact Hv].
    destruct Hv as [Hv|Hv]; [left; exact Hv|right]. simpl.
    rewrite lookup_insert. case_decide; [eexists; reflexivity|exact Hv].
Qed.

(** Claim C6: selection invariant.  From the empty registry, after any
    sequence of add, switch, remove and rename operations, each of which
    may succeed or fail, [current_wallet] is the empty string or a key of
    [wallets]. *)
Theorem current_valid_run_ops (os : list RegistryOp) :
  current_valid (run_ops os wallet_data_new).
Proof.
  assert (H0 : current_valid wallet_data_new) by (left; reflexivity).
  revert H0. generalize wallet_data_new.
  induction os as [|o os IH]; intros wd Hv; simpl; [exact Hv|].
  apply IH, run_op_current_valid, Hv.
Qed.

(** Claim C7: removing the active entry clears the selection.  When the
    address is a key and equals [current_wallet], [remove_wallet]
    succeeds, deletes the entry and resets [current_wallet] to the empty
    string. *)
Theorem remove_current_clears (wd : WalletData) (a : string)
    (Hin : is_Some (wallets wd !! a)) (Hcur : current_wallet wd = a) :
  remove_wallet a wd =
    (mkWalletData "" (delete a (wallets wd)) (contacts wd) (api_key wd), Ok tt).
Proof.
  destruct Hin as [v Hv]. unfold remove_wallet. rewrite Hv.
  rewrite bool_decide_eq_true_2 by exact Hcur. reflexivity.
Qed.

(** Claim C3, as corrected: the guard against deleting the active entry is
    the delete command's.  [delete_wallet] by name refuses the wallet whose
    address is [current_wallet] and leaves the registry unchanged; the
    registry method [remove_wallet] has no such guard: removing the current
    address succeeds when it is a key, deleting the entry and resetting
    [current_wallet] to the empty string, and fails as not found, with the
    registry unchanged, when it is not. *)
Theorem delete_guard_and_remove_current :
  (forall (wd : WalletData) n w,
     get_wallet_by_name wd n = Some w ->
     current_wallet wd = addr_key (address w) ->
     delete_wallet_cmd n wd = (wd, Err CannotDeleteCurrent)) /\
  (forall (wd : WalletData),
     is_Some (wallets wd !! current_wallet wd) ->
     remove_wallet (current_wallet wd) wd =
       (mkWalletData "" (delete (current_wallet wd) (wallets wd)) (contacts wd) (api_key wd),
        Ok tt)) /\
  (forall (wd : WalletData),
     wallets wd !! current_wallet wd = None ->
     remove_wallet (current_wallet wd) wd = (wd, Err (WalletNotFound (current_wallet wd)))).
Proof.
  split; [|split].
  - intros wd n w Hw Hcur. unfold delete_wallet_cmd. rewrite Hw.
    rewrite bool_decide_eq_true_2 by exact Hcur. reflexivity.
  - intros wd [v Hv]. unfold remove_wallet. rewrite Hv.
    rewrite bool_decide_eq_true_2 by reflexivity. reflexivity.
  - intros wd Hn. unfold remove_wallet. rewrite Hn. reflexivity.
Qed.

(** Claim C8, as corrected: the rename command.  In a registry whose
    entries are stored under their own address keys (as [add_wallet]
    keeps them), [rename_wallet old new] fails as not found when no entry
    is named [old]; otherwise, for the entry [w] found by that name, it
    fails with the empty-name error when [new] is empty, with the
    duplicate-name error when some entry (the renamed one included) is
    already named [new], and else it replaces that entry, under its key,
    by [w] with label [new] and changes nothing else.  Every failure leaves
    the registry unchanged. *)
Theorem rename_cmd_spec (wd : WalletData) (old new : string)
    (Hc : keys_consistent wd) :
  (get_wallet_by_name wd old = None ->
     rename_wallet_cmd old new wd = (wd, Err (NameNotFound old))) /\
  (forall w, get_wallet_by_name wd old = Some w ->
     name w = old /\
     (new = "" -> rename_wallet_cmd old new wd = (wd, Err EmptyName)) /\
     (new <> "" -> (exists k w', wallets wd !! k = Some w' /\ name w' = new) ->
        rename_wallet_cmd old new wd = (wd, Err (NameExists new))) /\
     (new <> "" -> (forall k w', wallets wd !! k = Some w' -> name w' <> new) ->
        wallets wd !! addr_key (address w) = Some w /\
        rename_wallet_cmd old new wd =
          (set_wallets wd (<[addr_key (address w) := set_name w new]> (wallets wd)), Ok tt))).
Proof.
  split.
  - intros Hn. unfold rename_wallet_cmd. rewrite Hn. reflexivity.
  - intros w Hw.
    destruct (get_wallet_by_name_some wd old w Hw) as [Hname [k Hk]].
    pose proof (Hc _ _ Hk) as ->.
    split; [exact Hname|]. split; [|split].
    + intros ->. unfold rename_wallet_cmd. rewrite Hw. reflexivity.
    + intros Hne (k' & w' & Hk' & Hn').
      unfold rename_wallet_cmd. rewrite Hw.
      rewrite bool_decide_eq_false_2 by exact Hne.
      destruct (get_wallet_by_name wd new) eqn:Eg; [reflexivity|].
      exfalso. exact (get_wallet_by_name_none wd new Eg k' w' Hk' Hn').
    + intros Hne Hfree. split; [exact Hk|].
      unfold rename_wallet_cmd. rewrite Hw.
      rewrite bool_decide_eq_false_2 by exact Hne.
      destruct (get_wallet_by_name wd new) as [w2|] eqn:Eg.
      * exfalso. destruct (get_wallet_by_name_some wd new w2 Eg) as [Hn2 [k2 Hk2]].
        exact (Hfree _ _ Hk2 Hn2).
      * rewrite Hk. reflexivity.
Qed.

(** ** The registry at concrete inputs *)

Lemma wd0_wallets : wallets Sample.wd0 = <["0x0102" := Sample.w1]> ∅.
Proof. reflexivity. Qed.

Lemma wd0_consistent : keys_consistent Sample.wd0.
Proof. apply (keys_consistent_run_ops [OpAdd Sample.w1]), keys_consistent_new. Qed.

(** Witness of C5: adding "main" a second time is refused. *)
Lemma add_wallet_spec_witness :
  is_Some (wallets Sample.wd0 !! "0x0102") /\
  add_wallet Sample.w1 Sample.wd0 = (Sample.wd0, Err (WalletExists "0x0102")).
Proof.
  assert (H : is_Some (wallets Sample.wd0 !! "0x0102")).
  { rewrite wd0_wallets, lookup_insert_eq. eexists; reflexivity. }
  split; [exact H|].
  exact (proj1 (add_wallet_spec Sample.wd0 Sample.w1) H).
Defined.

(** Witness of C7: removing the current wallet of [Sample.wd0]. *)
Lemma remove_current_clears_witness :
  is_Some (wallets Sample.wd0 !! "0x0102") /\ current_wallet Sample.wd0 = "0x0102" /\
  remove_wallet "0x0102" Sample.wd0 =
    (mkWalletData "" (delete "0x0102" (wallets Sample.wd0)) [] None, Ok tt).
Proof.
  assert (H : is_Some (wallets Sample.wd0 !! "0x0102")).
  { rewrite wd0_wallets, lookup_insert_eq. eexists; reflexivity. }
  split; [exact H|]. split; [reflexivity|].
  exact (remove_current_clears Sample.wd0 "0x0102" H eq_refl).
Defined.

(** Counterexample to C3 as stated: [remove_wallet] of the current address
    of [Sample.wd0] succeeds and changes the registry. *)
Lemma remove_current_counterexample :
  current_wallet Sample.wd0 = "0x0102" /\
  snd (remove_wallet (current_wallet Sample.wd0) Sample.wd0) = Ok tt /\
  fst (remove_wallet (current_wallet Sample.wd0) Sample.wd0) <> Sample.wd0.
Proof.
  split; [reflexivity|]. split; [vm_compute; reflexivity|].
  intros H. apply (f_equal current_wallet) in H. vm_compute in H. discriminate.
Qed.

(** Witness of C3 (corrected): deleting "main", the current wallet. *)
Lemma delete_guard_and_remove_current_witness :
  get_wallet_by_name Sample.wd0 "main" = Some Sample.w1 /\
  delete_wallet_cmd "main" Sample.wd0 = (Sample.wd0, Err CannotDeleteCurrent).
Proof.
  assert (H : get_wallet_by_name Sample.wd0 "main" = Some Sample.w1) by (vm_compute; reflexivity).
  split; [exact H|].
  exact (proj1 delete_guard_and_remove_current Sample.wd0 "main" Sample.w1 H eq_refl).
Defined.

(** Counterexample to C8 as stated: "main" is the name of no entry other
    than the one renamed, yet renaming "main" to "main" fails with the
    duplicate-name error. *)
Lemma rename_same_name_counterexample :
  get_wallet_by_name Sample.wd0 "main" = Some Sample.w1 /\
  (forall k w, wallets Sample.wd0 !! k = Some w -> name w = "main" -> w = Sample.w1) /\
  rename_wallet_cmd "main" "main" Sample.wd0 = (Sample.wd0, Err (NameExists "main")).
Proof.
  split; [vm_compute; reflexivity|]. split.
  - intros k w Hk _. rewrite wd0_wallets in Hk.
    apply lookup_insert_Some in Hk as [[_ <-]|[_ Hk]]; [reflexivity|].
    rewrite lookup_empty in Hk. discriminate.
  - vm_compute. reflexivity.
Qed.

(** Witness of C8 (corrected): renaming "main" to "" and to "savings". *)
Lemma rename_cmd_spec_witness :
  keys_consistent Sample.wd0 /\
  rename_wallet_cmd "main" "" Sample.wd0 = (Sample.wd0, Err EmptyName) /\
  rename_wallet_cmd "main" "savings" Sample.wd0 =
    (set_wallets Sample.wd0 (<["0x0102" := set_name Sample.w1 "savings"]> (wallets Sample.wd0)),
     Ok tt).
Proof.
  assert (Hg : get_wallet_by_name Sample.wd0 "main" = Some Sample.w1) by (vm_compute; reflexivity).
  split; [exact wd0_consistent|]. split.
  - destruct (rename_cmd_spec Sample.wd0 "main" "" wd0_consistent) as [_ H].
    destruct (H Sample.w1 Hg) as (_ & He & _). exact (He eq_refl).
  - destruct (rename_cmd_spec Sample.wd0 "main" "savings" wd0_consistent) as [_ H].
    destruct (H Sample.w1 Hg) as (_ & _ & _ & Hok).
    apply Hok; [discriminate|].
    intros k w' Hk. rewrite wd0_wallets in Hk.
    apply lookup_insert_Some in Hk as [[_ <-]|[_ Hk]]; [discriminate|].
    rewrite lookup_empty in Hk. discriminate.
Defined.

(** ** Secure persistence *)

Module FsFacts.
Import Fs.

Lemma lookup_set_node_eq s p nd : p <> [] -> lookup_node (set_node s p nd) p = Some nd.
Proof. intros Hp. destruct p as [|c p]; [congruence|]. simpl. apply lookup_insert_eq. Qed.

Lemma lookup_set_node_ne s p q nd :
  p <> q -> lookup_node (set_node s q nd) p = lookup_node s p.
Proof. intros Hne. destruct p as [|c p]; [reflexivity|]. simpl. by rewrite lookup_insert_ne. Qed.

Lemma touches_only_refl q s : touches_only q s s.
Proof. split; reflexivity. Qed.

Lemma touches_only_set q s nd : touches_only q s (set_node s q nd).
Proof. split; [reflexivity|]. intros p Hp. by apply lookup_set_node_ne. Qed.

Lemma mkdir_one_effect q s s' r :
  mkdir_one q s = (s', r) ->
  touches_only q s s' /\
  (forall nd, lookup_node s q = Some nd -> lookup_node s' q = Some nd) /\
  (r = Ok tt -> lookup_node s q = None -> q <> [] ->
     lookup_node s' q = Some (Dir (N.ldiff mode_777 (umask s)))) /\
  (r = Ok tt -> exists m, lookup_node s' q = Some (Dir m)).
Proof.
  unfold mkdir_one. destruct (lookup_node s q) as [[m|m c]|] eqn:E; intros H;
    injection H as <- <-.
  - split; [apply touches_only_refl|]. split; [intros nd Hq; rewrite E; exact Hq|].
    split; [intros _ Hn; discriminate|]. intros _. exists m. exact E.
  - split; [apply touches_only_refl|]. split; [intros nd Hq; rewrite E; exact Hq|].
    split; discriminate.
  - assert (Hq : q <> []) by (intros ->; discriminate).
    split; [apply touches_only_set|]. split; [intros nd Hn; discriminate|].
    split; [intros _ _ _; by apply lookup_set_node_eq|].
    intros _. eexists. by apply lookup_set_node_eq.
Qed.

(** [create_dir_all] only adds directories *)
Lemma create_dir_all_from_keeps d r s s' res :
  create_dir_all_from d r s = (s', res) ->
  umask s' = umask s /\
  forall p nd, lookup_node s p = Some nd -> lookup_node s' p = Some nd.
Proof.
  revert d s. induction r as [|c r IH]; intros d s H; simpl in H.
  - injection H as <- _. split; [reflexivity|]. intros p nd Hp; exact Hp.
  - unfold bind in H.
    destruct (mkdir_one (d ++ [c]) s) as [s1 r1] eqn:E1.
    destruct (mkdir_one_effect _ _ _ _ E1) as [[Hu Ho] [Hd _]].
    assert (Hk1 : forall p nd, lookup_node s p = Some nd -> lookup_node s1 p = Some nd).
    { intros p nd Hp. destruct (decide (p = (d ++ [c])%list)) as [->|Hne].
      - exact (Hd _ Hp).
      - rewrite Ho by exact Hne. exact Hp. }
    destruct r1 as [u|e].
    + destruct (IH _ _ H) as [Hu' Hk]. split; [congruence|].
      intros p nd Hp. exact (Hk _ _ (Hk1 _ _ Hp)).
    + injection H as <- _. split; [exact Hu|exact Hk1].
Qed.

Lemma app_length_ne {A} (l1 l2 : list A) : length l1 <> length l2 -> l1 <> l2.
Proof. intros Hl Heq. subst. contradiction. Qed.

(** [create_dir_all] succeeding leaves the target a directory, created
    with the default mode when it was missing *)
Lemma create_dir_all_from_creates d r s s' :
  create_dir_all_from d r s = (s', Ok tt) -> r <> [] ->
  exists m, lookup_node s' (d ++ r) = Some (Dir m) /\
            (lookup_node s (d ++ r) = None -> m = N.ldiff mode_777 (umask s)).
Proof.
  revert d s. induction r as [|c r IH]; intros d s H Hr; [congruence|].
  simpl in H. unfold bind in H.
  destruct (mkdir_one (d ++ [c]) s) as [s1 [u|e]] eqn:E1; [|discriminate].
  destruct u.
  destruct (mkdir_one_effect _ _ _ _ E1) as [[Hu Ho] [Hd [Hc Hex]]].
  destruct r as [|c2 r].
  - simpl in H. injection H as <-.
    destruct (Hex eq_refl) as [m Hm]. exists m. split; [exact Hm|].
    intros Hn. rewrite (Hc eq_refl Hn) in Hm by (destruct d; discriminate).
    congruence.
  - destruct (IH (d ++ [c])%list s1 H ltac:(discriminate)) as [m [Hm Hdef]].
    rewrite <- app_assoc in Hm, Hdef. simpl in Hm, Hdef.
    exists m. split; [exact Hm|]. intros Hn. rewrite Hdef; [rewrite Hu; reflexivity|].
    rewrite Ho; [exact Hn|].
    apply app_length_ne. rewrite !length_app. simpl. lia.
Qed.

Lemma write_effect p c s s' :
  write p c s = (s', Ok tt) ->
  touches_only p s s' /\ p <> [] /\ exists m, lookup_node s' p = Some (File m c).
Proof.
  unfold write. destruct (parent p) as [q|] eqn:Ep; [|discriminate].
  assert (Hp : p <> []) by (destruct p; discriminate).
  destruct (lookup_node s q) as [[mq|mq cq]|]; [|discriminate|discriminate].
  destruct (lookup_node s p) as [[m|m c0]|]; intros H; [discriminate| |];
    injection H as <-; (split; [apply touches_only_set|]); split; try exact Hp;
    eexists; by apply lookup_set_node_eq.
Qed.

Lemma set_mode_effect p m s s' :
  set_mode p m s = (s', Ok tt) ->
  touches_only p s s' /\ p <> [] /\
  (forall m0 c, lookup_node s p = Some (File m0 c) -> lookup_node s' p = Some (File m c)) /\
  (forall m0, lookup_node s p = Some (Dir m0) -> lookup_node s' p = Some (Dir m)).
Proof.
  unfold set_mode. destruct p as [|c0 p]; [discriminate|].
  destruct (lookup_node s (c0 :: p)) as [[m1|m1 c1]|] eqn:E; intros H; [| |discriminate];
    injection H as <-; (split; [apply touches_only_set|]); (split; [discriminate|]);
    split; intros; simplify_eq; by apply lookup_set_node_eq.
Qed.


Lemma removelast_ne (p : Path) : p <> [] -> removelast p <> p.
Proof.
  intros Hp. apply app_length_ne.
  rewrite (List.app_removelast_last ""%string Hp) at 2. rewrite length_app. simpl. lia.
Qed.

Ltac fs_bind H :=
  unfold bind in H;
  lazymatch type of H with
  | match ?m ?s with _ => _ end = _ =>
      let s1 := fresh "s" in let r1 := fresh "r" in let E := fresh "E" in
      destruct (m s) as [s1 [[]|?]] eqn:E; cbv beta iota in H; [|discriminate H]
  end.

Lemma touches_only_trans q s1 s2 s3 :
  touches_only q s1 s2 -> touches_only q s2 s3 -> touches_only q s1 s3.
Proof.
  intros [U1 H1] [U2 H2]. split; [congruence|].
  intros p Hp. rewrite H2, H1 by exact Hp. reflexivity.
Qed.

Lemma write_secure_effect p c s s' :
  write_secure p c s = (s', Ok tt) ->
  exists q s1, parent p = Some q /\ create_dir_all q s = (s1, Ok tt) /\
               touches_only p s1 s' /\ lookup_node s' p = Some (File mode_600 c).
Proof.
  unfold write_secure. intros H. destruct (parent p) as [q|] eqn:Ep.
  - fs_bind H. fs_bind H. fs_bind H. unfold ret in H. injection H as <-.
    destruct (write_effect _ _ _ _ E0) as (T1 & Hp & m & Hf).
    destruct (set_mode_effect _ _ _ _ E1) as (T2 & _ & Hm & _).
    exists q, s0. split; [reflexivity|]. split; [exact E|].
    split; [exact (touches_only_trans _ _ _ _ T1 T2)|].
    exact (Hm _ _ Hf).
  - fs_bind H. fs_bind H. exfalso.
    destruct (write_effect _ _ _ _ E0) as (_ & Hp & _).
    destruct p; [|discriminate]. contradiction.
Qed.

Lemma parent_snoc (l : Path) (x : string) : parent (l ++ [x]) = Some l.
Proof.
  unfold parent. destruct (l ++ [x])%list eqn:E; [destruct l; discriminate|].
  rewrite <- E. f_equal. apply removelast_last.
Qed.

(** [create_dir_all] of [r1 ++ r2] is [create_dir_all] of [r1] followed
    by the components of [r2] *)
Lemma create_dir_all_from_app d r1 r2 s :
  create_dir_all_from d (r1 ++ r2) s =
  bind (create_dir_all_from d r1) (fun _ => create_dir_all_from (d ++ r1) r2) s.
Proof.
  revert d s. induction r1 as [|c r1 IH]; intros d s; simpl.
  - unfold bind, ret. rewrite app_nil_r. reflexivity.
  - unfold bind. destruct (mkdir_one (d ++ [c]) s) as [s1 [u|e]]; [|reflexivity].
    rewrite IH. unfold bind. rewrite <- app_assoc. reflexivity.
Qed.

(** every missing prefix of the path, not only the last one, is created
    with the default mode *)
Lemma create_dir_all_from_creates_prefix d r1 r2 s s' :
  create_dir_all_from d (r1 ++ r2) s = (s', Ok tt) -> r1 <> [] ->
  lookup_node s (d ++ r1) = None ->
  lookup_node s' (d ++ r1) = Some (Dir (N.ldiff mode_777 (umask s))).
Proof.
  intros H Hr Hn. rewrite create_dir_all_from_app in H. unfold bind in H.
  destruct (create_dir_all_from d r1 s) as [s1 [[]|e]] eqn:E1; [|discriminate].
  destruct (create_dir_all_from_creates _ _ _ _ E1 Hr) as [m [Hm Hdef]].
  rewrite (Hdef Hn) in Hm.
  exact (proj2 (create_dir_all_from_keeps _ _ _ _ _ H) _ _ Hm).
Qed.

End FsFacts.


Import Fs FsFacts.

(** Claim C9, as corrected: [write_secure(path, content)] creates every
    missing ancestor directory (each proper prefix [a] of the path
    [a ++ b]) with the default mode (0o777 less the umask, not 0700) and
    leaves every existing one with its mode; when it
    succeeds the file holds exactly [content] with mode 0600.  The
    owner-only 0700 mode of the directory comes from [create_dir_secure],
    which [wallet_file_path] runs on the wallet directory: writing the
    registry that way leaves the directory at 0700 and the file at 0600
    with the content. *)
Theorem write_secure_spec :
  (forall s p c s', write_secure p c s = (s', Ok tt) ->
     lookup_node s' p = Some (File mode_600 c)) /\
  (forall s a b c s', b <> [] -> write_secure (a ++ b) c s = (s', Ok tt) ->
     (forall m, lookup_node s a = Some (Dir m) -> lookup_node s' a = Some (Dir m)) /\
     (a <> [] -> lookup_node s a = None ->
        lookup_node s' a = Some (Dir (N.ldiff mode_777 (umask s))))) /\
  (forall s dir f c s', dir <> [] -> write_registry dir f c s = (s', Ok tt) ->
     lookup_node s' dir = Some (Dir mode_700) /\
     lookup_node s' (dir ++ [f]) = Some (File mode_600 c)).
Proof.
  split; [|split].
  - intros s p c s' H. destruct (write_secure_effect _ _ _ _ H) as (_ & _ & _ & _ & _ & Hf).
    exact Hf.
  - intros s a b c s' Hb H.
    destruct (write_secure_effect _ _ _ _ H) as (q & s1 & Ep & Hc & [_ T] & _).
    assert (Eq : q = (a ++ removelast b)%list).
    { unfold parent in Ep. destruct (a ++ b)%list eqn:E; [destruct a; [congruence|discriminate]|].
      rewrite <- E, removelast_app in Ep by exact Hb. congruence. }
    subst q.
    assert (Ha : a <> (a ++ b)%list).
    { apply app_length_ne. rewrite length_app. destruct b; [congruence|]. simpl. lia. }
    split.
    + intros m Hm. rewrite T by exact Ha.
      exact (proj2 (create_dir_all_from_keeps _ _ _ _ _ Hc) _ _ Hm).
    + intros Ha0 Hn. rewrite T by exact Ha.
      exact (create_dir_all_from_creates_prefix [] a (removelast b) s s1 Hc Ha0 Hn).
  - intros s dir f c s' Hd H. unfold write_registry in H.
    fs_bind H. rename E into Ecs. unfold create_dir_secure in Ecs.
    fs_bind Ecs. fs_bind Ecs. unfold ret in Ecs. injection Ecs as <-.
    destruct (create_dir_all_from_creates [] dir s s1 E Hd) as [m [Hm _]].
    simpl in Hm.
    destruct (set_mode_effect _ _ _ _ E0) as (_ & _ & _ & Hdir).
    pose proof (Hdir m Hm) as Hdir1.
    destruct (write_secure_effect _ _ _ _ H) as (q & s3 & Ep & Hc & [_ T] & Hf).
    rewrite parent_snoc in Ep. injection Ep as <-.
    split; [|exact Hf].
    rewrite T.
    + exact (proj2 (create_dir_all_from_keeps _ _ _ _ _ Hc) _ _ Hdir1).
    + apply app_length_ne. rewrite length_app. simpl. lia.
Qed.

(** Counterexample to C9 as stated: with the usual umask 0o022 and no
    directory yet, [write_secure] of /home/u/w.json succeeds but leaves
    /home/u at mode 0o755, with group and other bits set. *)
Lemma write_secure_dir_mode_counterexample :
  let r := write_secure ["home"; "u"; "w.json"] "data" (mkFs ∅ 18) in
  snd r = Ok tt /\
  lookup_node (fst r) ["home"; "u"] = Some (Dir 493) /\
  N.land 493 63 <> 0%N.
Proof. vm_compute. split; [reflexivity|]. split; [reflexivity|]. discriminate. Qed.

(** Witness of C9 (corrected): writing the registry through the wallet
    directory /home/u/rsk-rust-cli on an empty file system. *)
Lemma write_secure_spec_witness :
  let r := write_registry ["home"; "u"; "rsk-rust-cli"] "rsk-rust-cli.json" "{}" (mkFs ∅ 18) in
  snd r = Ok tt /\
  lookup_node (fst r) ["home"; "u"; "rsk-rust-cli"] = Some (Dir mode_700) /\
  lookup_node (fst r) ["home"; "u"; "rsk-rust-cli"; "rsk-rust-cli.json"] = Some (File mode_600 "{}").
Proof.
  assert (H : snd (write_registry ["home"; "u"; "rsk-rust-cli"] "rsk-rust-cli.json" "{}"
                                  (mkFs ∅ 18)) = Ok tt) by (vm_compute; reflexivity).
  cbv zeta. split; [exact H|].
  destruct (write_registry ["home"; "u"; "rsk-rust-cli"] "rsk-rust-cli.json" "{}" (mkFs ∅ 18))
    as [s' r'] eqn:E.
  simpl in H. subst r'.
  exact (proj2 (proj2 write_secure_spec) _ ["home"; "u"; "rsk-rust-cli"] _ _ s'
           ltac:(discriminate) E).
Defined.

(** ** Secret wrappers *)

Module SecretsFacts.
Import Secrets.

(** Claim C10: formatting never shows the secret.  For any two payloads
    of one type, the Debug and the Display output of [Secret::new] are the
    same, and likewise for [SerializableSecret::new]: the output is the
    wrapper's name around [type_name::<T>()]. *)
Theorem format_independent_of_value {T : Type} `{TypeName T} (v1 v2 : T) :
  secret_debug (secret_new v1) = secret_debug (secret_new v2) /\
  secret_display (secret_new v1) = secret_display (secret_new v2) /\
  serializable_debug (serializable_new v1) = serializable_debug (serializable_new v2) /\
  serializable_display (serializable_new v1) = serializable_display (serializable_new v2) /\
  secret_debug (secret_new v1) = "Secret<" ++ type_name ++ ">" /\
  serializable_debug (serializable_new v1) = "SerializableSecret<" ++ type_name ++ ">".
Proof. repeat split. Qed.

Example secret_debug_string :
  secret_debug (secret_new "0x1234567890abcdef") = "Secret<alloc::string::String>".
Proof. reflexivity. Qed.

End SecretsFacts.

(* ================================================================== *)
(** * Further properties of the registry, the keystore and the commands *)

(** ** Registry methods *)

(** [get_wallet_by_name] finds a stored wallet with that name, and finds
    nothing only when no entry has that name. *)
Theorem get_wallet_by_name_correct (wd : WalletData) (n : string) :
  (forall w, get_wallet_by_name wd n = Some w ->
             name w = n /\ exists k, wallets wd !! k = Some w) /\
  (get_wallet_by_name wd n = None <->
   forall k w, wallets wd !! k = Some w -> name w <> n).
Proof.
  split; [apply get_wallet_by_name_some|]. split; [apply get_wallet_by_name_none|].
  intros Hall. destruct (get_wallet_by_name wd n) as [w|] eqn:E; [|reflexivity].
  exfalso. destruct (get_wallet_by_name_some wd n w E) as [Hn [k Hk]].
  exact (Hall k w Hk Hn).
Qed.

(** After a successful [add_wallet], [get_current_wallet] returns the added
    wallet, the registry has one entry more, and a lookup by its name finds
    a wallet with that name. *)
Theorem add_wallet_then_current (wd : WalletData) (w : Wallet) :
  wallets wd !! addr_key (address w) = None ->
  let wd' := fst (add_wallet w wd) in
  snd (add_wallet w wd) = Ok tt /\
  get_current_wallet wd' = Some w /\
  size (wallets wd') = S (size (wallets wd)) /\
  (exists w', get_wallet_by_name wd' (name w) = Some w').
Proof.
  intros Hn. cbv zeta. unfold add_wallet. rewrite Hn. simpl.
  split; [reflexivity|]. split.
  { unfold get_current_wallet. simpl. apply lookup_insert_eq. }
  split; [by apply map_size_insert_None|].
  destruct (get_wallet_by_name _ (name w)) as [w'|] eqn:E; [eauto|].
  exfalso. eapply (get_wallet_by_name_none _ _ E (addr_key (address w)) w); [|reflexivity].
  simpl. apply lookup_insert_eq.
Qed.

(** Adding a wallet with a fresh address and then removing that address
    gives back the original entries, with no wallet selected. *)
Theorem add_then_remove_wallet (wd : WalletData) (w : Wallet) :
  wallets wd !! addr_key (address w) = None ->
  remove_wallet (addr_key (address w)) (fst (add_wallet w wd)) =
    (mkWalletData "" (wallets wd) (contacts wd) (api_key wd), Ok tt).
Proof.
  intros Hn. unfold add_wallet. rewrite Hn. simpl.
  unfold remove_wallet. simpl. rewrite lookup_insert_eq.
  rewrite bool_decide_eq_true_2 by reflexivity. simpl.
  rewrite delete_insert_id by exact Hn. reflexivity.
Qed.

(** Removing a stored address that is not the current one deletes exactly
    that entry (one entry fewer) and keeps the selection. *)
Theorem remove_other_wallet (wd : WalletData) (a : string) :
  is_Some (wallets wd !! a) -> current_wallet wd <> a ->
  let wd' := fst (remove_wallet a wd) in
  snd (remove_wallet a wd) = Ok tt /\
  current_wallet wd' = current_wallet wd /\
  wallets wd' !! a = None /\
  (forall k, k <> a -> wallets wd' !! k = wallets wd !! k) /\
  size (wallets wd') = pred (size (wallets wd)).
Proof.
  intros [v Hv] Hne. cbv zeta. unfold remove_wallet. rewrite Hv.
  rewrite bool_decide_eq_false_2 by exact Hne. simpl.
  split; [reflexivity|]. split; [reflexivity|]. split; [apply lookup_delete_eq|].
  split; [intros k Hk; by apply lookup_delete_ne|].
  apply map_size_delete_Some. eauto.
Qed.

(** The registry method [rename_wallet] never adds or removes an entry and
    never changes the selection: on success only the label of the entry
    under the wallet's address changes. *)
Theorem rename_wallet_keeps_keys (wd : WalletData) (w : Wallet) (n : string) :
  let wd' := fst (rename_wallet w n wd) in
  dom (wallets wd') = dom (wallets wd) /\
  current_wallet wd' = current_wallet wd /\
  (forall w0, wallets wd !! addr_key (address w) = Some w0 ->
     wallets wd' !! addr_key (address w) = Some (set_name w0 n)) /\
  (forall k, k <> addr_key (address w) -> wallets wd' !! k = wallets wd !! k).
Proof.
  cbv zeta. unfold rename_wallet.
  destruct (wallets wd !! addr_key (address w)) as [w1|] eqn:E; simpl.
  - split; [apply dom_insert_lookup_L; eauto|]. split; [reflexivity|].
    split; [intros w0 H0; injection H0 as <-; apply lookup_insert_eq|].
    intros k Hk. by apply lookup_insert_ne.
  - split; [reflexivity|]. split; [reflexivity|].
    split; [intros w0 H0; congruence|]. reflexivity.
Qed.

(** Every registry built from the empty one by add, switch, remove and
    rename stores each entry under the rendering of its own address. *)
Theorem registry_keys_consistent (os : list RegistryOp) :
  keys_consistent (run_ops os wallet_data_new).
Proof. apply keys_consistent_run_ops, keys_consistent_new. Qed.

(** ** Keystore output *)

Lemma string_length_app (s1 s2 : string) :
  String.length (s1 ++ s2) = String.length s1 + String.length s2.
Proof. induction s1 as [|c s1 IH]; simpl; [reflexivity|]. rewrite IH. reflexivity. Qed.

Lemma hex_encode_length (l : list byte) : String.length (hex_encode l) = 2 * length l.
Proof.
  induction l as [|b l IH]; [reflexivity|].
  cbn [hex_encode]. rewrite string_length_app, IH. simpl. lia.
Qed.

(** A successful decryption always returns "0x" followed by 64 lowercase
    hex digits (66 characters), the rendering of a 32-byte key. *)
Theorem decrypt_output_shape (prims : Primitives) (w : Wallet) (P out : string) :
  decrypt_private_key prims w P = Ok out ->
  exists k, length k = 32 /\ out = key_hex k /\
            String.length out = 66 /\ parse_key_hex out = Some k.
Proof.
  unfold decrypt_private_key.
  destruct (b64_decode prims (salt w)) as [s|]; [|discriminate].
  destruct (b64_decode prims (iv w)) as [n|]; [|discriminate].
  destruct (b64_decode prims (encrypted_private_key w)) as [c|]; [|discriminate].
  destruct (Nat.eqb (length s) 16); simpl; [|discriminate].
  destruct (Nat.eqb (length n) 12); [|discriminate].
  destruct (aes_gcm_decrypt prims _ n c) as [p|]; [|discriminate].
  destruct (Nat.eqb (length p) 32) eqn:Lp; simpl; [|discriminate].
  intros H. injection H as <-. apply Nat.eqb_eq in Lp.
  exists p. split; [exact Lp|]. split; [reflexivity|]. split.
  - unfold key_hex. rewrite string_length_app, hex_encode_length, Lp. reflexivity.
  - apply parse_key_hex_key_hex.
Qed.

(** ** Contact book *)

Section ContactFacts.
Local Open Scope list_scope.

Lemma position_some {A} (p : A -> bool) (l : list A) i :
  position p l = Some i ->
  exists l1 x l2, l = l1 ++ x :: l2 /\ length l1 = i /\ p x = true /\
                  Forall (fun y => p y = false) l1.
Proof.
  revert i. induction l as [|y l IH]; intros i H; simpl in H; [discriminate|].
  destruct (p y) eqn:Ey.
  - injection H as <-. exists [], y, l. auto.
  - destruct (position p l) as [j|] eqn:Ej; simpl in H; [|discriminate].
    injection H as <-. destruct (IH j eq_refl) as (l1 & x & l2 & -> & <- & Hx & Hf).
    exists (y :: l1), x, l2. simpl. auto.
Qed.

Lemma position_find_none {A} (p : A -> bool) (l : list A) :
  position p l = None <-> List.find p l = None.
Proof.
  induction l as [|y l IH]; simpl; [tauto|].
  destruct (p y); [split; discriminate|].
  destruct (position p l); simpl; rewrite <- IH; split; congruence.
Qed.

Lemma find_split {A} (p : A -> bool) (l1 l2 : list A) x :
  Forall (fun y => p y = false) l1 -> p x = true -> List.find p (l1 ++ x :: l2) = Some x.
Proof.
  induction 1 as [|y l1 Hy _ IH]; intros Hx; simpl; [by rewrite Hx|].
  rewrite Hy. exact (IH Hx).
Qed.

Lemma find_unique_split {A} (p : A -> bool) (l1 l2 : list A) x c :
  Forall (fun y => p y = false) l1 -> p x = true ->
  List.find p (l1 ++ x :: l2) = Some c -> c = x.
Proof. intros Hf Hx H. rewrite find_split in H by assumption. congruence. Qed.

Lemma remove_at_split {A} (l1 l2 : list A) x : remove_at (length l1) (l1 ++ x :: l2) = l1 ++ l2.
Proof. induction l1 as [|y l1 IH]; simpl; [reflexivity|]. rewrite IH. reflexivity. Qed.

Lemma insert_split {A} (l1 l2 : list A) x y : <[length l1 := y]> (l1 ++ x :: l2) = l1 ++ y :: l2.
Proof. induction l1 as [|z l1 IH]; simpl; [reflexivity|]. rewrite IH. reflexivity. Qed.

Lemma set_contacts_same (wd : WalletData) : set_contacts wd (contacts wd) = wd.
Proof. destruct wd. reflexivity. Qed.

(** [add_contact] keeps the names and the addresses of the contact book
    free of duplicates: it appends the contact when no stored contact has
    its name or its address, and otherwise fails and changes nothing. *)
Theorem add_contact_unique (wd : WalletData) (c : Contact) :
  NoDup (map contact_name (contacts wd)) -> NoDup (map contact_address (contacts wd)) ->
  let '(wd', r) := add_contact c wd in
  NoDup (map contact_name (contacts wd')) /\ NoDup (map contact_address (contacts wd')) /\
  ((r = XOk tt /\ contacts wd' = contacts wd ++ [c]) \/
   (r = XErr ContactExists /\ wd' = wd /\
    exists c', c' ∈ contacts wd /\
               (contact_name c' = contact_name c \/ contact_address c' = contact_address c))).
Proof.
  intros Hn Ha. unfold add_contact.
  destruct (existsb _ (contacts wd)) eqn:E.
  - split; [exact Hn|]. split; [exact Ha|]. right. split; [reflexivity|]. split; [reflexivity|].
    apply existsb_exists in E as [c' [Hin Hc]]. exists c'.
    split; [by apply list_elem_of_In|].
    apply orb_true_iff in Hc as [Hc|Hc]; [left|right]; exact (bool_decide_eq_true_1 _ Hc).
  - assert (Hno : forall c', c' ∈ contacts wd ->
                    contact_name c' <> contact_name c /\ contact_address c' <> contact_address c).
    { intros c' Hin. apply list_elem_of_In in Hin.
      assert (Hc : (bool_decide (contact_name c' = contact_name c) ||
                    bool_decide (contact_address c' = contact_address c)) = false).
      { destruct (_ || _) eqn:Ht; [|reflexivity].
        rewrite <- E. symmetry. apply existsb_exists. exists c'. auto. }
      apply orb_false_iff in Hc as [H1 H2].
      split; intros Heq; [rewrite bool_decide_eq_true_2 in H1 by exact Heq|
                          rewrite bool_decide_eq_true_2 in H2 by exact Heq]; discriminate. }
    simpl. rewrite !map_app. simpl. split; [|split; [|left; split; reflexivity]].
    + apply NoDup_app. split; [exact Hn|]. split; [|apply NoDup_singleton].
      intros x Hx Hx'. apply list_elem_of_singleton in Hx'. subst x.
      apply list_elem_of_In, in_map_iff in Hx as [c' [Heq Hin]].
      apply list_elem_of_In in Hin. exact (proj1 (Hno c' Hin) Heq).
    + apply NoDup_app. split; [exact Ha|]. split; [|apply NoDup_singleton].
      intros x Hx Hx'. apply list_elem_of_singleton in Hx'. subst x.
      apply list_elem_of_In, in_map_iff in Hx as [c' [Heq Hin]].
      apply list_elem_of_In in Hin. exact (proj2 (Hno c' Hin) Heq).
Qed.

Lemma position_first {A} (p : A -> bool) (l1 l2 : list A) x :
  Forall (fun y => p y = false) l1 -> p x = true -> position p (l1 ++ x :: l2) = Some (length l1).
Proof.
  induction 1 as [|y l1 Hy _ IH]; intros Hx; simpl; [by rewrite Hx|].
  rewrite Hy, (IH Hx). reflexivity.
Qed.

(** [get_contact] and [remove_contact] pick the same contact: when no
    contact matches the identifier the removal fails and changes nothing;
    otherwise the contact [get_contact] returns is the first match, and
    the removal deletes exactly that entry, keeping the order of the
    others. *)
Theorem remove_contact_get_contact (addr_to_string : Address -> string)
    (wd : WalletData) (identifier : string) :
  match get_contact addr_to_string wd identifier with
  | None => remove_contact addr_to_string identifier wd = (wd, XErr ContactNotFound)
  | Some c =>
      contact_matches addr_to_string identifier c = true /\
      exists l1 l2, contacts wd = l1 ++ c :: l2 /\
        Forall (fun y => contact_matches addr_to_string identifier y = false) l1 /\
        remove_contact addr_to_string identifier wd = (set_contacts wd (l1 ++ l2), XOk tt)
  end.
Proof.
  unfold get_contact, remove_contact.
  destruct (position _ (contacts wd)) as [i|] eqn:E.
  - destruct (position_some _ _ _ E) as (l1 & x & l2 & Hl & Hi & Hx & Hf).
    rewrite Hl, find_split by assumption. split; [exact Hx|].
    exists l1, l2. split; [reflexivity|]. split; [exact Hf|].
    rewrite <- Hi, remove_at_split. reflexivity.
  - apply position_find_none in E. rewrite E. reflexivity.
Qed.

(** [update_contact] overwrites the entry [get_contact] finds, in place:
    the other contacts and their order are kept and the number of contacts
    does not change; with no match it fails and changes nothing. *)
Theorem update_contact_get_contact (addr_to_string : Address -> string)
    (wd : WalletData) (identifier : string) (c' : Contact) :
  match get_contact addr_to_string wd identifier with
  | None => update_contact addr_to_string identifier c' wd = (wd, XErr ContactNotFound)
  | Some c =>
      exists l1 l2, contacts wd = l1 ++ c :: l2 /\
        Forall (fun y => contact_matches addr_to_string identifier y = false) l1 /\
        update_contact addr_to_string identifier c' wd =
          (set_contacts wd (l1 ++ c' :: l2), XOk tt) /\
        length (l1 ++ c' :: l2) = length (contacts wd)
  end.
Proof.
  unfold get_contact, update_contact.
  destruct (position _ (contacts wd)) as [i|] eqn:E.
  - destruct (position_some _ _ _ E) as (l1 & x & l2 & Hl & Hi & Hx & Hf).
    rewrite Hl, find_split by assumption.
    exists l1, l2. split; [reflexivity|]. split; [exact Hf|].
    rewrite <- Hi, insert_split. split; [reflexivity|].
    rewrite !length_app. reflexivity.
  - apply position_find_none in E. rewrite E. reflexivity.
Qed.

(** Adding a contact and then removing it by its name restores the
    wallet data, provided no stored contact's address prints as that
    name (the identifier of [remove_contact] also matches addresses). *)
Theorem add_then_remove_contact (addr_to_string : Address -> string)
    (wd wd' : WalletData) (c : Contact) :
  add_contact c wd = (wd', XOk tt) ->
  Forall (fun y => addr_to_string (contact_address y) <> contact_name c) (contacts wd) ->
  remove_contact addr_to_string (contact_name c) wd' = (wd, XOk tt).
Proof.
  intros Hadd Hs. unfold add_contact in Hadd.
  destruct (existsb _ (contacts wd)) eqn:E; [discriminate|].
  injection Hadd as <-.
  assert (Hf : Forall (fun y => contact_matches addr_to_string (contact_name c) y = false)
                      (contacts wd)).
  { apply Forall_forall. intros y Hy. unfold contact_matches.
    assert (Hn : contact_name y <> contact_name c).
    { intros Heq. assert (Ht : existsb (fun c0 => bool_decide (contact_name c0 = contact_name c) ||
                       bool_decide (contact_address c0 = contact_address c)) (contacts wd) = true).
      { apply existsb_exists. exists y. split; [by apply list_elem_of_In|].
        rewrite bool_decide_eq_true_2 by exact Heq. reflexivity. }
      congruence. }
    pose proof (proj1 (Forall_forall _ _) Hs y Hy) as Ha.
    rewrite !bool_decide_eq_false_2 by assumption. reflexivity. }
  unfold remove_contact. simpl.
  rewrite position_first with (l2 := []) by
    (exact Hf || (unfold contact_matches; rewrite bool_decide_eq_true_2 by reflexivity; reflexivity)).
  rewrite remove_at_split, app_nil_r. simpl. destruct wd; reflexivity.
Qed.

Lemma prefix_empty (s : string) : String.prefix "" s = true.
Proof. destruct s; reflexivity. Qed.

Lemma prefix_refl (s : string) : String.prefix s s = true.
Proof.
  induction s as [|a s IH]; [reflexivity|]. simpl.
  destruct (ascii_dec a a); [exact IH|contradiction].
Qed.

Lemma str_contains_prefix (s q : string) : String.prefix q s = true -> str_contains s q = true.
Proof.
  intros H. assert (E : str_contains s q = String.prefix q s ||
    match s with EmptyString => false | String _ s' => str_contains s' q end)
    by (destruct s; reflexivity).
  rewrite E, H. reflexivity.
Qed.

Lemma str_contains_refl (s : string) : str_contains s s = true.
Proof. apply str_contains_prefix, prefix_refl. Qed.

(** An empty query of [search_contacts] returns every contact, in order;
    any query returns contacts of the book, in their order. *)
Theorem search_contacts_empty (addr_to_string : Address -> string) (wd : WalletData) :
  search_contacts addr_to_string wd "" = contacts wd.
Proof.
  unfold search_contacts. induction (contacts wd) as [|c l IH]; [reflexivity|].
  simpl. unfold search_matches at 1. simpl. destruct (to_lowercase (contact_name c)); simpl;
    rewrite IH; reflexivity.
Qed.

(** The name search of [search_contacts] ignores ASCII case: a stored
    contact whose name lowers to the lowered query is always returned. *)
Theorem search_contacts_name_case (addr_to_string : Address -> string)
    (wd : WalletData) (q : string) (c : Contact) :
  c ∈ contacts wd -> to_lowercase (contact_name c) = to_lowercase q ->
  c ∈ search_contacts addr_to_string wd q.
Proof.
  intros Hin Hq. unfold search_contacts. apply list_elem_of_In, filter_In.
  split; [by apply list_elem_of_In|].
  unfold search_matches. rewrite Hq, str_contains_refl. reflexivity.
Qed.

End ContactFacts.

(** ** Secure file writing *)

Lemma create_dir_all_from_far d r s s' res p :
  create_dir_all_from d r s = (s', res) -> length (d ++ r) < length p ->
  lookup_node s' p = lookup_node s p.
Proof.
  revert d s. induction r as [|c r IH]; intros d s H Hl; simpl in H.
  - injection H as <- _. reflexivity.
  - unfold bind in H.
    destruct (mkdir_one (d ++ [c]) s) as [s1 r1] eqn:E1.
    destruct (mkdir_one_effect _ _ _ _ E1) as [[_ Ho] _].
    assert (Hne : p <> (d ++ [c])%list).
    { apply app_length_ne. rewrite length_app in Hl |- *. simpl in *. lia. }
    destruct r1 as [u|e].
    + rewrite (IH _ _ H) by (rewrite <- app_assoc; exact Hl). apply Ho, Hne.
    + injection H as <- _. apply Ho, Hne.
Qed.

Lemma create_dir_all_from_blocked d r1 r2 s m c :
  r1 <> [] -> lookup_node s (d ++ r1) = Some (File m c) ->
  exists s' e, create_dir_all_from d (r1 ++ r2) s = (s', Err e).
Proof.
  revert d s. induction r1 as [|x r1 IH]; intros d s Hr Hf; [congruence|].
  simpl. unfold bind.
  destruct (mkdir_one (d ++ [x]) s) as [s1 [u|e]] eqn:E1; [|eauto].
  destruct r1 as [|y r1].
  - unfold mkdir_one in E1. rewrite Hf in E1. discriminate.
  - destruct (create_dir_all_from_keeps _ [x] _ _ _ ltac:(simpl; unfold bind; rewrite E1; reflexivity))
      as [_ Hk].
    apply (IH (d ++ [x])%list s1 ltac:(discriminate)).
    rewrite <- app_assoc. apply Hk. exact Hf.
Qed.

(** [write_secure] never writes through a regular file: when an ancestor
    of the path is a file, [create_dir_all] fails, the error is returned
    and the node at the path is left as it was. *)
Theorem write_secure_blocked (s : FsState) (a b : Path) (m : N) (c0 c : string) :
  a <> [] -> b <> [] -> lookup_node s a = Some (File m c0) ->
  exists s' e, write_secure (a ++ b) c s = (s', Err e) /\
               lookup_node s' (a ++ b) = lookup_node s (a ++ b).
Proof.
  intros Ha Hb Hf. unfold write_secure.
  assert (Hp : (a ++ b)%list <> []) by (destruct a; [congruence|discriminate]).
  assert (Eq : parent (a ++ b) = Some (a ++ removelast b)%list).
  { unfold parent. destruct (a ++ b)%list eqn:E; [congruence|].
    rewrite <- E, removelast_app by exact Hb. reflexivity. }
  rewrite Eq. unfold create_dir_all.
  destruct (create_dir_all_from_blocked [] a (removelast b) s m c0 Ha Hf) as [s' [e He]].
  exists s', e. unfold bind. rewrite He. split; [reflexivity|].
  apply (create_dir_all_from_far _ _ _ _ _ _ He).
  simpl. rewrite !length_app.
  rewrite (List.app_removelast_last ""%string Hb) at 2. rewrite length_app. simpl. lia.
Qed.

Lemma create_dir_secure_effect (dir : Path) (s s' : FsState) :
  create_dir_secure dir s = (s', Ok tt) ->
  lookup_node s' dir = Some (Dir mode_700) /\ umask s' = umask s /\
  forall p nd, p <> dir -> lookup_node s p = Some nd -> lookup_node s' p = Some nd.
Proof.
  intros H. unfold create_dir_secure in H.
  fs_bind H. fs_bind H. unfold ret in H. injection H as <-.
  destruct (create_dir_all_from_keeps _ _ _ _ _ E) as [Hu Hk].
  destruct (set_mode_effect _ _ _ _ E0) as ([Hu' T] & Hd & _ & Hdir).
  split; [|split; [congruence|]].
  - destruct (create_dir_all_from_creates [] dir s s0 E Hd) as [m0 [Hm _]].
    exact (Hdir m0 Hm).
  - intros p nd Hne Hp. rewrite T by exact Hne. exact (Hk _ _ Hp).
Qed.

(** [create_dir_secure] succeeding leaves the directory at mode 0o700
    and only adds nodes: every other node it found is still there. *)
Theorem create_dir_secure_spec (dir : Path) (s s' : FsState) :
  create_dir_secure dir s = (s', Ok tt) ->
  lookup_node s' dir = Some (Dir mode_700) /\ umask s' = umask s /\
  forall p nd, p <> dir -> lookup_node s p = Some nd -> lookup_node s' p = Some nd.
Proof. apply create_dir_secure_effect. Qed.

Lemma wallet_file_path_effect (dl : Path) (s s0 : FsState) (f : Path) :
  wallet_file_path dl s = (s0, Ok f) ->
  create_dir_secure (dl ++ ["rsk-rust-cli"])%list s = (s0, Ok tt) /\
  f = ((dl ++ ["rsk-rust-cli"]) ++ ["rsk-rust-cli.json"])%list.
Proof.
  unfold wallet_file_path, bind.
  destruct (create_dir_secure _ s) as [s1 [[]|e]]; [|discriminate].
  unfold ret. intros H. injection H as <- <-. split; reflexivity.
Qed.

(** [fs::write] never replaces a directory *)
Lemma write_not_dir p c s s' m :
  write p c s = (s', Ok tt) -> lookup_node s p <> Some (Dir m).
Proof.
  unfold write. destruct (parent p); [|discriminate].
  destruct (lookup_node s l) as [[]|]; try discriminate.
  destruct (lookup_node s p) as [[]|]; intros H; [discriminate|congruence|congruence].
Qed.

(** ** Commands of [src/commands/wallet.rs] *)

Lemma wallet_new_decrypts (prims : Primitives) tape K nm P now w :
  length K = 32 ->
  (forall l, b64_decode prims (b64_encode prims l) = Some l) ->
  (forall k n p c, aes_gcm_encrypt prims k n p = Some c -> aes_gcm_decrypt prims k n c = Some p) ->
  wallet_new prims tape K nm P now = Ok w ->
  decrypt_private_key prims w P = Ok (key_hex K) /\ name w = nm /\
  address w = signer_address prims K.
Proof.
  intros HK Hb64 Hdec. unfold wallet_new, encrypt_private_key.
  destruct (aes_gcm_encrypt prims _ _ K) as [ct|] eqn:Hct; [|discriminate].
  intros H. injection H as <-. split; [|split; reflexivity].
  unfold decrypt_private_key. simpl.
  rewrite !Hb64, !fill_bytes_length. simpl. rewrite (Hdec _ _ _ _ Hct), HK. reflexivity.
Qed.

Lemma get_wallet_by_name_new (n : string) : get_wallet_by_name wallet_data_new n = None.
Proof. unfold get_wallet_by_name. simpl. rewrite map_to_list_empty. reflexivity. Qed.

Lemma get_wallet_by_name_insert (wd : WalletData) (a : string) (w : Wallet) n :
  get_wallet_by_name wd n = None -> name w = n ->
  get_wallet_by_name (set_current (set_wallets wd (<[a := w]> (wallets wd))) a) n = Some w.
Proof.
  intros Hnone Hn.
  destruct (get_wallet_by_name (set_current (set_wallets wd (<[a := w]> (wallets wd))) a) n)
    as [w'|] eqn:E.
  - destruct (get_wallet_by_name_some _ _ _ E) as [Hn' [k Hk]]. simpl in Hk.
    destruct (decide (k = a)) as [->|Hne].
    + rewrite lookup_insert_eq in Hk. congruence.
    + rewrite lookup_insert_ne in Hk by congruence.
      exfalso. exact (get_wallet_by_name_none _ _ Hnone _ _ Hk Hn').
  - exfalso. refine (get_wallet_by_name_none _ _ E a w _ Hn). simpl. apply lookup_insert_eq.
Qed.

(** [create_wallet] refuses a name that is already taken, before drawing
    a key, and the registry file is not written. *)
Theorem create_wallet_name_taken (prims : Primitives) tape K nm P now
    (wd : WalletData) (w0 : Wallet) :
  get_wallet_by_name wd nm = Some w0 ->
  create_wallet_cmd prims tape K nm P now (Some wd) = (Some wd, XErr (Base (NameExists nm))).
Proof. intros H. unfold create_wallet_cmd. rewrite H. reflexivity. Qed.

(** A successful [create_wallet] with a free name and a new address
    writes a registry whose current wallet is the new one, found under
    its name, and which decrypts with the password to the hex rendering
    of the drawn key (the cipher and base64 assumed correct). *)
Theorem create_wallet_success (prims : Primitives) tape K nm P now
    (file : option WalletData) (w : Wallet) :
  length K = 32 ->
  (forall l, b64_decode prims (b64_encode prims l) = Some l) ->
  (forall k n p c, aes_gcm_encrypt prims k n p = Some c -> aes_gcm_decrypt prims k n c = Some p) ->
  (forall wd, file = Some wd -> get_wallet_by_name wd nm = None) ->
  wallet_new prims tape K nm P now = Ok w ->
  wallets (match file with Some wd => wd | None => wallet_data_new end)
    !! addr_key (address w) = None ->
  exists wd', create_wallet_cmd prims tape K nm P now file = (Some wd', XOk tt) /\
    get_current_wallet wd' = Some w /\ get_wallet_by_name wd' nm = Some w /\
    decrypt_private_key prims w P = Ok (key_hex K).
Proof.
  intros HK Hb64 Hdec Hfree Hnew Hfresh.
  destruct (wallet_new_decrypts _ _ _ _ _ _ _ HK Hb64 Hdec Hnew) as (Hd & Hn & _).
  set (wd := match file with Some wd => wd | None => wallet_data_new end) in Hfresh.
  assert (Hnone : get_wallet_by_name wd nm = None).
  { subst wd. destruct file as [wd|]; [exact (Hfree wd eq_refl)|apply get_wallet_by_name_new]. }
  assert (Htaken : match file with
                   | Some wd => match get_wallet_by_name wd nm with Some _ => true | None => false end
                   | None => false end = false).
  { destruct file as [wd1|]; [|reflexivity]. rewrite (Hfree wd1 eq_refl). reflexivity. }
  unfold create_wallet_cmd. rewrite Htaken, Hnew. fold wd.
  unfold add_wallet. rewrite Hfresh. simpl.
  eexists. split; [reflexivity|]. split; [|split; [|exact Hd]].
  - unfold get_current_wallet. simpl. apply lookup_insert_eq.
  - apply get_wallet_by_name_insert; assumption.
Qed.

(** [import_wallet] ignores the result of [add_wallet]: importing a key
    whose address is already in the registry reports success and writes
    the registry back unchanged (name and current wallet included). *)
Theorem import_existing_address (prims : Primitives) parse tape pk nm P now
    (wd : WalletData) (key : list byte) (w w0 : Wallet) :
  parse pk = Some key -> wallet_new prims tape key nm P now = Ok w ->
  wallets wd !! addr_key (address w) = Some w0 ->
  import_wallet_cmd prims parse tape pk nm P now (Some wd) = (Some wd, XOk tt).
Proof.
  intros Hp Hnew Hex. unfold import_wallet_cmd. rewrite Hp, Hnew. simpl.
  unfold add_wallet. rewrite Hex. reflexivity.
Qed.

(** [import_wallet] does not check names: importing a new address under
    a name an entry already has succeeds, and the registry then holds two
    entries of that name. *)
Theorem import_duplicate_name (prims : Primitives) parse tape pk nm P now
    (wd : WalletData) (key : list byte) (w w0 : Wallet) (k0 : string) :
  parse pk = Some key -> wallet_new prims tape key nm P now = Ok w ->
  wallets wd !! addr_key (address w) = None ->
  wallets wd !! k0 = Some w0 -> name w0 = nm ->
  exists wd', import_wallet_cmd prims parse tape pk nm P now (Some wd) = (Some wd', XOk tt) /\
    k0 <> addr_key (address w) /\
    wallets wd' !! k0 = Some w0 /\ wallets wd' !! addr_key (address w) = Some w /\
    name w0 = nm /\ name w = nm.
Proof.
  intros Hp Hnew Hfresh Hk0 Hn0. unfold import_wallet_cmd. rewrite Hp, Hnew. simpl.
  unfold add_wallet. rewrite Hfresh. simpl.
  assert (Hne : k0 <> addr_key (address w)) by (intros ->; congruence).
  eexists. split; [reflexivity|]. split; [exact Hne|]. simpl.
  split; [rewrite lookup_insert_ne by congruence; exact Hk0|].
  split; [apply lookup_insert_eq|]. split; [exact Hn0|].
  unfold wallet_new in Hnew. destruct (encrypt_private_key _ _ _ _) as [[[? ?] ?]|]; [|discriminate].
  injection Hnew as <-. reflexivity.
Qed.

(** [switch_wallet] by name: in a registry whose entries sit under their
    own address, a name that is found always switches, and the new
    current wallet is the one found; an unknown name fails with nothing
    written. *)
Theorem switch_wallet_cmd_spec (wd : WalletData) (nm : string) :
  keys_consistent wd ->
  match get_wallet_by_name wd nm with
  | Some w => exists wd', switch_wallet_cmd nm (Some wd) = (Some wd', XOk tt) /\
                          get_current_wallet wd' = Some w /\ name w = nm /\
                          wallets wd' = wallets wd
  | None => switch_wallet_cmd nm (Some wd) = (Some wd, XErr (Base (NameNotFound nm)))
  end.
Proof.
  intros Hc. unfold switch_wallet_cmd.
  destruct (get_wallet_by_name wd nm) as [w|] eqn:E; [|reflexivity].
  destruct (get_wallet_by_name_some _ _ _ E) as [Hn [k Hk]].
  pose proof (Hc _ _ Hk) as ->.
  unfold switch_wallet. rewrite Hk. simpl.
  eexists. split; [reflexivity|]. split; [exact Hk|]. split; [exact Hn|reflexivity].
Qed.

(** [delete_wallet] of a wallet other than the current one, in a registry
    whose entries sit under their own address, removes exactly that entry
    and keeps the current selection. *)
Theorem delete_other_wallet (wd : WalletData) (n : string) (w : Wallet) :
  keys_consistent wd -> get_wallet_by_name wd n = Some w ->
  current_wallet wd <> addr_key (address w) ->
  let wd' := fst (delete_wallet_cmd n wd) in
  snd (delete_wallet_cmd n wd) = Ok tt /\
  wallets wd' = delete (addr_key (address w)) (wallets wd) /\
  current_wallet wd' = current_wallet wd /\
  size (wallets wd') = pred (size (wallets wd)).
Proof.
  intros Hc Hg Hcur. cbv zeta. unfold delete_wallet_cmd. rewrite Hg.
  rewrite bool_decide_eq_false_2 by exact Hcur.
  destruct (get_wallet_by_name_some _ _ _ Hg) as [_ [k Hk]].
  pose proof (Hc _ _ Hk) as Hkey. subst k.
  unfold remove_wallet. rewrite Hk. rewrite bool_decide_eq_false_2 by exact Hcur. simpl.
  split; [reflexivity|]. split; [reflexivity|]. split; [reflexivity|].
  apply map_size_delete_Some. eauto.
Qed.

(** [backup_wallet] refuses a wallet name ending in ".json" before
    reading the wallet or touching the backup path: after
    [wallet_file_path] nothing more is done, so the only change to the
    file system is the one of [create_dir_secure] on the data directory
    (left at mode 0o700, every other node kept). *)
Theorem backup_json_name_rejected (wallet_json : Wallet -> string) (dl : Path)
    (wd : WalletData) (nm : string) (path : Path) (s s0 : FsState) (f : Path) :
  wallet_file_path dl s = (s0, Ok f) ->
  str_ends_with nm ".json" = true ->
  backup_wallet_cmd wallet_json dl (Some wd) nm path s = (s0, XErr (InvalidBackupName nm)) /\
  lookup_node s0 (dl ++ ["rsk-rust-cli"]) = Some (Dir mode_700) /\
  forall p nd, p <> (dl ++ ["rsk-rust-cli"])%list ->
               lookup_node s p = Some nd -> lookup_node s0 p = Some nd.
Proof.
  intros Hw H. unfold backup_wallet_cmd. rewrite Hw, H. split; [reflexivity|].
  destruct (wallet_file_path_effect _ _ _ _ Hw) as [Hc _].
  destruct (create_dir_secure_effect _ _ _ Hc) as (Hd & _ & Hk).
  split; [exact Hd|exact Hk].
Qed.

(** A successful [backup_wallet] leaves at the backup path a file of mode
    0o600 holding the serialization of the wallet with that name, and the
    data directory of [wallet_file_path] at mode 0o700 (whatever its mode
    was); the nodes that existed at other paths stay as they were. *)
Theorem backup_wallet_success (wallet_json : Wallet -> string) (dl : Path) (wd : WalletData)
    (nm : string) (path : Path) (s s' : FsState) :
  backup_wallet_cmd wallet_json dl (Some wd) nm path s = (s', XOk tt) ->
  exists w, get_wallet_by_name wd nm = Some w /\ name w = nm /\
    lookup_node s' path = Some (File mode_600 (wallet_json w)) /\
    lookup_node s' (dl ++ ["rsk-rust-cli"]) = Some (Dir mode_700) /\
    forall p nd, p <> path -> p <> (dl ++ ["rsk-rust-cli"])%list ->
                 lookup_node s p = Some nd -> lookup_node s' p = Some nd.
Proof.
  unfold backup_wallet_cmd.
  destruct (wallet_file_path dl s) as [s0 [f|e]] eqn:Ew; [|discriminate].
  destruct (wallet_file_path_effect _ _ _ _ Ew) as [Hc _].
  destruct (create_dir_secure_effect _ _ _ Hc) as (Hd & _ & Hk0).
  destruct (str_ends_with nm ".json"); [discriminate|].
  destruct (get_wallet_by_name wd nm) as [w|] eqn:Eg; [|discriminate].
  destruct (get_wallet_by_name_some _ _ _ Eg) as [Hn _].
  unfold bind.
  destruct (parent path) as [q|] eqn:Ep.
  - destruct (create_dir_all q s0) as [s1 [[]|e]] eqn:E1; [|discriminate].
    destruct (write path (wallet_json w) s1) as [s2 [[]|e]] eqn:E2; [|discriminate].
    destruct (set_mode path mode_600 s2) as [s3 [[]|e]] eqn:E3; [|discriminate].
    intros H; injection H as <-.
    destruct (write_effect _ _ _ _ E2) as ([_ T2] & _ & m & Hf).
    destruct (set_mode_effect _ _ _ _ E3) as ([_ T3] & _ & Hm & _).
    destruct (create_dir_all_from_keeps _ _ _ _ _ E1) as [_ Hk].
    pose proof (Hk _ _ Hd) as Hd1.
    assert (Hne : (dl ++ ["rsk-rust-cli"])%list <> path).
    { intros Heq. rewrite Heq in Hd1. exact (write_not_dir _ _ _ _ _ E2 Hd1). }
    exists w. split; [reflexivity|]. split; [exact Hn|]. split; [exact (Hm _ _ Hf)|].
    split; [rewrite T3, T2 by exact Hne; exact Hd1|].
    intros p nd Hp Hq Hs. rewrite T3, T2 by exact Hp. exact (Hk _ _ (Hk0 _ _ Hq Hs)).
  - unfold ret.
    destruct (write path (wallet_json w) s0) as [s2 [[]|e]] eqn:E2; [|discriminate].
    exfalso. destruct (write_effect _ _ _ _ E2) as (_ & Hp & _).
    destruct path; [contradiction|discriminate].
Qed.

(** ** Witnesses *)

(** Adding "main" to an empty registry selects it. *)
Lemma add_wallet_then_current_witness :
  wallets wallet_data_new !! addr_key (address Sample.w1) = None /\
  get_current_wallet (fst (add_wallet Sample.w1 wallet_data_new)) = Some Sample.w1.
Proof.
  split; [reflexivity|].
  exact (proj1 (proj2 (add_wallet_then_current wallet_data_new Sample.w1 eq_refl))).
Defined.

(** A registry with a contact, an API key and "main" current gets
    "spare" added and removed: the wallets, the contact and the key are
    those of before, and the selection is cleared. *)
Lemma add_then_remove_wallet_witness :
  remove_wallet "0x03" (fst (add_wallet Sample.w2 Sample.wd_rich)) =
    (mkWalletData "" (wallets Sample.wd_rich) [Sample.alice] (Some "key"), Ok tt).
Proof. exact (add_then_remove_wallet Sample.wd_rich Sample.w2 eq_refl). Defined.

(** Removing "main" while "spare" is current. *)
Lemma remove_other_wallet_witness :
  current_wallet Sample.wd1 = "0x03" /\
  wallets (fst (remove_wallet "0x0102" Sample.wd1)) !! "0x0102" = None.
Proof.
  split; [reflexivity|].
  refine (proj1 (proj2 (proj2 (remove_other_wallet Sample.wd1 "0x0102" _ _))));
    [vm_compute; eexists; reflexivity|vm_compute; discriminate].
Defined.

(** The toy wallet decrypts with "pw" to a 66-character rendering. *)
Lemma decrypt_output_shape_witness :
  decrypt_private_key ToyPrims.toy Sample.toy_wallet "pw" = Ok (key_hex ToyPrims.key0) /\
  exists k, length k = 32 /\ key_hex ToyPrims.key0 = key_hex k.
Proof.
  assert (H : decrypt_private_key ToyPrims.toy Sample.toy_wallet "pw" = Ok (key_hex ToyPrims.key0))
    by (vm_compute; reflexivity).
  split; [exact H|].
  destruct (decrypt_output_shape ToyPrims.toy Sample.toy_wallet "pw" _ H) as (k & Hk & He & _).
  exists k. split; assumption.
Defined.

(** A book holding Bob: Alice is appended, and a second "Bob" under
    another address is refused with the book unchanged. *)
Lemma add_contact_unique_witness :
  contacts (fst (add_contact Sample.alice Sample.wd_bob)) = [Sample.bob; Sample.alice] /\
  NoDup (map contact_name (contacts (fst (add_contact Sample.alice Sample.wd_bob)))) /\
  add_contact (mkContact "Bob" [x0c] None []) Sample.wd_bob = (Sample.wd_bob, XErr ContactExists).
Proof.
  assert (Hn : NoDup (map contact_name (contacts Sample.wd_bob)))
    by (apply NoDup_singleton).
  assert (Ha : NoDup (map contact_address (contacts Sample.wd_bob)))
    by (apply NoDup_singleton).
  pose proof (add_contact_unique Sample.wd_bob Sample.alice Hn Ha) as H1.
  pose proof (add_contact_unique Sample.wd_bob (mkContact "Bob" [x0c] None []) Hn Ha) as H2.
  destruct (add_contact Sample.alice Sample.wd_bob) as [wd1 r1] eqn:E1.
  destruct (add_contact (mkContact "Bob" [x0c] None []) Sample.wd_bob) as [wd2 r2] eqn:E2.
  destruct H1 as (_ & _ & [[Hr1 Hc1]|[Hr1 _]]);
    [|unfold add_contact in E1; vm_compute in E1; injection E1 as _ <-; discriminate].
  destruct H2 as (Hn2 & _ & [[Hr2 _]|[Hr2 [Hwd2 _]]]);
    [unfold add_contact in E2; vm_compute in E2; injection E2 as _ <-; discriminate|].
  cbn [fst snd]. split; [exact Hc1|]. split; [|rewrite Hr2, Hwd2; reflexivity].
  rewrite Hc1. simpl. constructor; [|apply NoDup_singleton].
  intros Hin. apply list_elem_of_singleton in Hin. discriminate.
Defined.

(** Alice is added after Bob and removed by her name; Bob, whose address
    does not print as "Alice", is passed over and kept. *)
Lemma add_then_remove_contact_witness :
  remove_contact addr_key "Alice" (fst (add_contact Sample.alice Sample.wd_bob)) =
    (Sample.wd_bob, XOk tt).
Proof.
  exact (add_then_remove_contact addr_key Sample.wd_bob _ Sample.alice eq_refl
           ltac:(constructor; [vm_compute; discriminate|constructor])).
Defined.

(** "ALICE" finds Alice. *)
Lemma search_contacts_name_case_witness :
  Sample.alice ∈ search_contacts addr_key (fst (add_contact Sample.alice Sample.wd0)) "ALICE".
Proof.
  apply search_contacts_name_case; [apply list_elem_of_In; simpl; left; reflexivity|].
  vm_compute. reflexivity.
Defined.

(** /home is a file: writing /home/u/w.json fails. *)
Lemma write_secure_blocked_witness :
  exists s' e, write_secure ["home"; "u"; "w.json"] "data" Sample.fs_home_file = (s', Err e) /\
    lookup_node s' ["home"; "u"; "w.json"] = None.
Proof.
  destruct (write_secure_blocked Sample.fs_home_file ["home"] ["u"; "w.json"] 420 "x" "data"
              ltac:(discriminate) ltac:(discriminate) eq_refl) as (s' & e & He & Hl).
  exists s', e. split; [exact He|]. exact Hl.
Defined.

(** /home/u/rsk-rust-cli created on an empty file system. *)
Lemma create_dir_secure_spec_witness :
  snd (create_dir_secure ["home"; "u"; "rsk-rust-cli"] (mkFs ∅ 18)) = Ok tt /\
  lookup_node (fst (create_dir_secure ["home"; "u"; "rsk-rust-cli"] (mkFs ∅ 18)))
    ["home"; "u"; "rsk-rust-cli"] = Some (Dir mode_700).
Proof.
  assert (H : snd (create_dir_secure ["home"; "u"; "rsk-rust-cli"] (mkFs ∅ 18)) = Ok tt)
    by (vm_compute; reflexivity).
  split; [exact H|].
  destruct (create_dir_secure ["home"; "u"; "rsk-rust-cli"] (mkFs ∅ 18)) as [s' r'] eqn:E.
  simpl in H. subst r'. exact (proj1 (create_dir_secure_spec _ _ _ E)).
Defined.

(** Creating a second "main" is refused. *)
Lemma create_wallet_name_taken_witness :
  create_wallet_cmd ToyPrims.toy ToyPrims.zero_tape ToyPrims.key0 "main" "pw" "t" (Some Sample.wd0) =
    (Some Sample.wd0, XErr (Base (NameExists "main"))).
Proof.
  apply (create_wallet_name_taken _ _ _ _ _ _ _ Sample.w1). vm_compute. reflexivity.
Defined.

(** "savings" created in the registry holding "main": the new toy wallet
    becomes current, next to "main". *)
Lemma create_wallet_success_witness :
  exists wd', create_wallet_cmd ToyPrims.toy ToyPrims.zero_tape ToyPrims.key0 "savings" "pw" "t"
                (Some Sample.wd0) = (Some wd', XOk tt) /\
    get_current_wallet wd' = Some Sample.toy_wallet2 /\
    get_wallet_by_name wd' "savings" = Some Sample.toy_wallet2 /\
    wallets wd' !! "0x0102" = Some Sample.w1 /\
    decrypt_private_key ToyPrims.toy Sample.toy_wallet2 "pw" = Ok (key_hex ToyPrims.key0).
Proof.
  destruct (create_wallet_success ToyPrims.toy ToyPrims.zero_tape ToyPrims.key0 "savings" "pw" "t"
              (Some Sample.wd0) Sample.toy_wallet2 eq_refl ToyPrimsFacts.toy_b64 ToyPrimsFacts.toy_dec
              ltac:(intros wd Hwd; injection Hwd as <-; vm_compute; reflexivity)
              ltac:(vm_compute; reflexivity) ltac:(vm_compute; reflexivity))
    as (wd' & H1 & H2 & H3 & H4).
  exists wd'. split; [exact H1|]. split; [exact H2|]. split; [exact H3|]. split; [|exact H4].
  unfold create_wallet_cmd in H1. vm_compute in H1. injection H1 as <-. reflexivity.
Defined.

(** Importing the key of the stored toy wallet again. *)
Lemma import_existing_address_witness :
  let wd := fst (add_wallet Sample.toy_wallet wallet_data_new) in
  import_wallet_cmd ToyPrims.toy (fun _ => Some ToyPrims.key0) ToyPrims.zero_tape "07" "main" "pw" "t"
    (Some wd) = (Some wd, XOk tt).
Proof.
  apply (import_existing_address _ _ _ _ _ _ _ _ ToyPrims.key0 Sample.toy_wallet Sample.toy_wallet);
    vm_compute; reflexivity.
Defined.

(** Importing the toy key as a second "main". *)
Lemma import_duplicate_name_witness :
  exists wd', import_wallet_cmd ToyPrims.toy (fun _ => Some ToyPrims.key0) ToyPrims.zero_tape
                "07" "main" "pw" "t" (Some Sample.wd0) = (Some wd', XOk tt) /\
    wallets wd' !! "0x0102" = Some Sample.w1 /\ name Sample.w1 = "main" /\
    name Sample.toy_wallet = "main".
Proof.
  destruct (import_duplicate_name ToyPrims.toy (fun _ => Some ToyPrims.key0) ToyPrims.zero_tape
              "07" "main" "pw" "t" Sample.wd0 ToyPrims.key0 Sample.toy_wallet Sample.w1 "0x0102"
              eq_refl ltac:(vm_compute; reflexivity) ltac:(vm_compute; reflexivity)
              eq_refl eq_refl) as (wd' & H1 & _ & H3 & _ & H5 & H6).
  exists wd'. auto.
Defined.

(** Switching back to "main" while "spare" is current. *)
Lemma switch_wallet_cmd_spec_witness :
  get_current_wallet Sample.wd1 = Some Sample.w2 /\
  exists wd', switch_wallet_cmd "main" (Some Sample.wd1) = (Some wd', XOk tt) /\
              get_current_wallet wd' = Some Sample.w1.
Proof.
  split; [reflexivity|].
  assert (Hc : keys_consistent Sample.wd1)
    by exact (keys_consistent_run_op (OpAdd Sample.w2) _ wd0_consistent).
  pose proof (switch_wallet_cmd_spec Sample.wd1 "main" Hc) as H.
  assert (E : get_wallet_by_name Sample.wd1 "main" = Some Sample.w1) by (vm_compute; reflexivity).
  rewrite E in H. destruct H as (wd' & H1 & H2 & _). exists wd'. auto.
Defined.

(** Deleting "main" while "spare" is current. *)
Lemma delete_other_wallet_witness :
  snd (delete_wallet_cmd "main" Sample.wd1) = Ok tt /\
  current_wallet (fst (delete_wallet_cmd "main" Sample.wd1)) = "0x03".
Proof.
  assert (Hc : keys_consistent Sample.wd1)
    by exact (keys_consistent_run_op (OpAdd Sample.w2) _ wd0_consistent).
  destruct (delete_other_wallet Sample.wd1 "main" Sample.w1 Hc
              ltac:(vm_compute; reflexivity) ltac:(vm_compute; discriminate)) as (H1 & _ & H3 & _).
  split; [exact H1|]. rewrite H3. reflexivity.
Defined.

(** A wallet name "main.json" is refused; the data directory, found at
    mode 0o755, is at 0o700 afterwards. *)
Lemma backup_json_name_rejected_witness :
  lookup_node Sample.fs_data_755 ["home"; "u"; "rsk-rust-cli"] = Some (Dir 493) /\
  backup_wallet_cmd name ["home"; "u"] (Some Sample.wd0) "main.json" ["b"; "main.bak"]
    Sample.fs_data_755 =
    (fst (wallet_file_path ["home"; "u"] Sample.fs_data_755), XErr (InvalidBackupName "main.json")) /\
  lookup_node (fst (wallet_file_path ["home"; "u"] Sample.fs_data_755))
    ["home"; "u"; "rsk-rust-cli"] = Some (Dir mode_700).
Proof.
  split; [reflexivity|].
  destruct (backup_json_name_rejected name ["home"; "u"] Sample.wd0 "main.json" ["b"; "main.bak"]
              Sample.fs_data_755 _ ["home"; "u"; "rsk-rust-cli"; "rsk-rust-cli.json"]
              ltac:(vm_compute; reflexivity) eq_refl) as (H1 & H2 & _).
  split; [exact H1|exact H2].
Defined.

(** Backing up "main" to /b/main.bak with the data directory at 0o755:
    the backup is written at 0o600 and the data directory is left at
    0o700. *)
Lemma backup_wallet_success_witness :
  lookup_node Sample.fs_data_755 ["home"; "u"; "rsk-rust-cli"] = Some (Dir 493) /\
  snd (backup_wallet_cmd name ["home"; "u"] (Some Sample.wd0) "main" ["b"; "main.bak"]
         Sample.fs_data_755) = XOk tt /\
  lookup_node (fst (backup_wallet_cmd name ["home"; "u"] (Some Sample.wd0) "main" ["b"; "main.bak"]
                      Sample.fs_data_755)) ["b"; "main.bak"] = Some (File mode_600 "main") /\
  lookup_node (fst (backup_wallet_cmd name ["home"; "u"] (Some Sample.wd0) "main" ["b"; "main.bak"]
                      Sample.fs_data_755)) ["home"; "u"; "rsk-rust-cli"] = Some (Dir mode_700).
Proof.
  split; [reflexivity|].
  assert (H : snd (backup_wallet_cmd name ["home"; "u"] (Some Sample.wd0) "main" ["b"; "main.bak"]
                     Sample.fs_data_755) = XOk tt) by (vm_compute; reflexivity).
  split; [exact H|].
  destruct (backup_wallet_cmd name ["home"; "u"] (Some Sample.wd0) "main" ["b"; "main.bak"]
              Sample.fs_data_755) as [s' r'] eqn:E.
  simpl in H. subst r'.
  destruct (backup_wallet_success _ _ _ _ _ _ _ E) as (w & _ & Hn & Hf & Hd & _).
  rewrite Hn in Hf. split; [exact Hf|exact Hd].
Defined.
